(** * FreeNOS kernel core: [kernel/Kernel.cpp]

    A shallow embedding of the [Kernel] class: construction and the boot
    reservation sequence, heap formatting, interrupt hooks and dispatch,
    and the boot image loader.  Collaborators whose code lives in other
    files (allocators, process manager, interrupt controller, memory
    contexts, the log) are represented by the calls made on them, which
    are recorded in a trace, and by an environment that supplies their
    answers. *)

From Stdlib Require Import ZArith Lia.
From stdpp Require Import base list strings gmap.

Local Open Scope Z_scope.

(** ** Platform constants

    Values that come from headers outside [Kernel.cpp]: type widths,
    [PAGESIZE], [sizeof] of the two allocator classes, the boot image
    constants of [BootImage.h], the [MemoryMap] regions and the
    [Memory::Access] flag bits. *)

Record MemoryRange := mkMemoryRange {
  mr_virt : Z;
  mr_phys : Z;
  mr_size : Z;
  mr_access : Z
}.

Record Platform := mkPlatform {
  WORD_BITS : Z;                 (* width of [Address] and [Size] *)
  PAGESIZE : Z;
  sizeof_BubbleAllocator : Z;
  sizeof_PoolAllocator : Z;
  BOOTIMAGE_MAGIC0 : Z;
  BOOTIMAGE_MAGIC1 : Z;
  BOOTIMAGE_REVISION : Z;
  BOOTIMAGE_NAMELEN : Z;
  KernelData : MemoryRange;      (* map.range(MemoryMap::KernelData) *)
  UserArgs : MemoryRange;        (* map.range(MemoryMap::UserArgs) *)
  Memory_User : Z;
  Memory_Readable : Z;
  Memory_Writable : Z;
  Memory_Executable : Z
}.

(** Unsigned arithmetic of [Address] and [Size] wraps at the word width;
    [u32] wraps at 32 bits. *)
Definition wrap (cfg : Platform) (x : Z) : Z := x mod 2 ^ WORD_BITS cfg.
Definition wrap32 (x : Z) : Z := x mod 2 ^ 32.

(** ** Data *)

(** [Allocator::Range]. *)
Record Range := mkRange {
  address : Z;
  range_size : Z;
  alignment : Z
}.

(** The part of [CoreInfo] the kernel reads. *)
Record CoreInfo := mkCoreInfo {
  memory_phys : Z;
  memory_size : Z;
  kernel_phys : Z;
  kernel_size : Z;
  bootImageAddress : Z;
  bootImageSize : Z;
  heapAddress : Z;
  heapSize : Z;
  coreChannelAddress : Z;
  coreChannelSize : Z
}.

(** [InterruptHook]: a handler (its function address) and the parameter
    that is passed back to it. *)
Record InterruptHook := mkInterruptHook {
  handler : Z;
  param : Z
}.

(** The interrupt controller, as far as the kernel looks into it. *)
Record IntController := mkIntController {
  getBase : Z
}.

Inductive AllocatorKind := BubbleAllocator | PoolAllocator.

(** An allocator control block constructed in place. *)
Record AllocatorObj := mkAllocatorObj {
  a_kind : AllocatorKind;
  a_range : Range;
  a_parent : option Z
}.

(** [BootImage.h] as the specification describes it. *)
Inductive BootSymbolType := BootProgram | BootPrivProgram | BootOther.

Definition BootSymbolType_eqb (a b : BootSymbolType) : bool :=
  match a, b with
  | BootProgram, BootProgram => true
  | BootPrivProgram, BootPrivProgram => true
  | BootOther, BootOther => true
  | _, _ => false
  end.

Record BootSymbol := mkBootSymbol {
  name : string;
  type : BootSymbolType;
  entry : Z;
  segmentsOffset : Z;
  segmentsCount : Z
}.

Record BootSegment := mkBootSegment {
  virtualAddress : Z;
  seg_size : Z;
  offset : Z
}.

(** The image is an overlay on raw memory: the two tables are reached by
    offsets and indexed without bounds, so they are total functions of the
    index. *)
Record BootImage := mkBootImage {
  magic0 : Z;
  magic1 : Z;
  layoutRevision : Z;
  symbolTableOffset : Z;
  symbolTableCount : Z;
  segmentsTableOffset : Z;
  symbolAt : Z -> BootSymbol;
  segmentAt : Z -> BootSegment
}.

(** Result codes. *)
Inductive Result := Success | InvalidBootImage | ProcessError | IOError.
Inductive CallResult := CallSuccess | CallFailure.

Inductive LogLevel := Emergency | Error | Notice.

(** ** Calls on collaborators *)

Inductive Event :=
| EvAppend (text : string)
| EvLog (lvl : LogLevel) (msg : string)
| EvNewSplitAllocator (phys virt : Range) (pageSize : Z)
| EvNewProcessManager
| EvNewAPI
| EvAllocateAt (addr : Z)
| EvAllocate (args : Range) (res : CallResult) (addr : Z)
| EvMemorySet (dest val count : Z)
| EvMemoryCopy (dest : Z) (src : string) (count : Z)
| EvEnable (irq : Z)
| EvDisable (irq : Z)
| EvSend (coreId irq : Z) (res : CallResult)
| EvHandler (h state p vec : Z)
| EvInterruptNotify (irq : Z) (res : CallResult)
| EvCreate (entryPoint : Z) (isBoot privileged : bool) (res : option Z)
| EvMap (proc virt phys access : Z) (res : CallResult)
| EvMapRange (proc : Z) (range : MemoryRange) (res : CallResult)
| EvSchedule.

(** The answers of the collaborators.  Each may depend on everything that
    happened before the call. *)
Record Env := mkEnv {
  log_instance : bool;
  toVirtual : Z -> Z;
  bootImageAt : Z -> BootImage;
  create_result : list Event -> Z -> bool -> option Z;
  map_result : list Event -> Z -> Z -> Z -> Z -> CallResult;
  allocate_result : list Event -> Range -> CallResult * Z;
  mapRange_result : list Event -> Z -> MemoryRange -> CallResult;
  interruptNotify_result : list Event -> Z -> CallResult;
  send_result : list Event -> Z -> Z -> CallResult
}.

(** ** Kernel state *)

Record KernelState := mkKernelState {
  m_interrupts : list (option (list InterruptHook));
  m_intControl : option IntController;
  m_timer : option Z;
  m_coreInfo : CoreInfo;
  objects : gmap Z AllocatorObj;
  defaultAllocator : option Z;
  trace : list Event
}.

Definition set_interrupts (v : list (option (list InterruptHook))) (k : KernelState) :=
  mkKernelState v (m_intControl k) (m_timer k) (m_coreInfo k)
                (objects k) (defaultAllocator k) (trace k).
Definition set_intControl (c : option IntController) (k : KernelState) :=
  mkKernelState (m_interrupts k) c (m_timer k) (m_coreInfo k)
                (objects k) (defaultAllocator k) (trace k).
Definition set_timer (t : option Z) (k : KernelState) :=
  mkKernelState (m_interrupts k) (m_intControl k) t (m_coreInfo k)
                (objects k) (defaultAllocator k) (trace k).
Definition set_coreInfo (i : CoreInfo) (k : KernelState) :=
  mkKernelState (m_interrupts k) (m_intControl k) (m_timer k) i
                (objects k) (defaultAllocator k) (trace k).
Definition set_objects (o : gmap Z AllocatorObj) (k : KernelState) :=
  mkKernelState (m_interrupts k) (m_intControl k) (m_timer k) (m_coreInfo k)
                o (defaultAllocator k) (trace k).
Definition set_defaultAllocator (d : option Z) (k : KernelState) :=
  mkKernelState (m_interrupts k) (m_intControl k) (m_timer k) (m_coreInfo k)
                (objects k) d (trace k).
Definition add_event (e : Event) (k : KernelState) :=
  mkKernelState (m_interrupts k) (m_intControl k) (m_timer k) (m_coreInfo k)
                (objects k) (defaultAllocator k) (trace k ++ [e]).

(** ** The monad of kernel code

    A call returns a value, halts the machine, faults (an access through a
    null pointer or outside an array), or is still looping when the fuel
    is spent. *)

Inductive FaultCause := NullPointer | OutOfBounds.

Inductive Res (A : Type) :=
| Ok (a : A)
| Halted
| Fault (c : FaultCause)
| OutOfFuel.
Arguments Ok {A} a.
Arguments Halted {A}.
Arguments Fault {A} c.
Arguments OutOfFuel {A}.

Definition K (A : Type) : Type := KernelState -> Res A * KernelState.

Definition ret {A} (a : A) : K A := fun k => (Ok a, k).

Definition bind {A B} (m : K A) (f : A -> K B) : K B :=
  fun k =>
    match m k with
    | (Ok a, k') => f a k'
    | (Halted, k') => (Halted, k')
    | (Fault c, k') => (Fault c, k')
    | (OutOfFuel, k') => (OutOfFuel, k')
    end.

Declare Scope kernel_scope.
Delimit Scope kernel_scope with kernel.
Notation "x <- m ;; f" := (bind m (fun x => f))
  (at level 100, m at next level, right associativity) : kernel_scope.
Notation "m ;; f" := (bind m (fun _ => f))
  (at level 100, right associativity) : kernel_scope.
Local Open Scope kernel_scope.

Definition gets {A} (f : KernelState -> A) : K A := fun k => (Ok (f k), k).
Definition modify (f : KernelState -> KernelState) : K unit := fun k => (Ok tt, f k).
Definition emit (e : Event) : K unit := modify (add_event e).
Definition halt {A} : K A := fun k => (Halted, k).
Definition fault {A} (c : FaultCause) : K A := fun k => (Fault c, k).
Definition outOfFuel {A} : K A := fun k => (OutOfFuel, k).

(** [for (Size i = start; i < bound; i += stride) body(i)]. *)
Fixpoint forLoop (cfg : Platform) (fuel : nat) (bound stride i : Z)
    (body : Z -> K unit) : K unit :=
  match fuel with
  | O => outOfFuel
  | S fuel' =>
      if i <? bound
      then body i ;; forLoop cfg fuel' bound stride (wrap cfg (i + stride)) body
      else ret tt
  end.

(** [for (ListIterator<T> i(lst); i.hasCurrent(); i++) body(i.current())]. *)
Fixpoint forEach {T} (lst : list T) (body : T -> K unit) : K unit :=
  match lst with
  | [] => ret tt
  | x :: rest => body x ;; forEach rest body
  end.

(** ** The code of [Kernel.cpp] *)

Section KernelCode.

Variable cfg : Platform.
Variable env : Env.

(** *** Helpers that live in other files *)

(** Modelled from the spec: the logging macros of [Log.h].  [NOTICE] and
    [ERROR] write a line and go on; [FATAL] writes a line and then halts
    the system. *)
Definition NOTICE (msg : string) : K unit := emit (EvLog Notice msg).
Definition ERROR (msg : string) : K unit := emit (EvLog Error msg).
Definition FATAL (msg : string) : K unit := emit (EvLog Emergency msg) ;; halt.

(** Modelled from the spec: equality of hooks and [List::contains].  Two
    hooks are the same hook when handler and parameter agree. *)
Definition hook_eqb (a b : InterruptHook) : bool :=
  (handler a =? handler b) && (param a =? param b).
Definition contains (lst : list InterruptHook) (hook : InterruptHook) : bool :=
  existsb (hook_eqb hook) lst.

(** Modelled from the spec: [List::append] adds at the tail, so a list
    keeps the order of insertion. *)
Definition append (lst : list InterruptHook) (hook : InterruptHook) :=
  lst ++ [hook].

(** Modelled from the spec: [Vector::fill] stores one value in every slot
    of the table. *)
Definition fill {T} (v : T) (tbl : list T) : list T :=
  replicate (length tbl) v.

(** [m_interrupts[vec]]: the index operator checks no bounds, a vector
    outside the table is a fault. *)
Definition interrupts_at (vec : Z) : K (option (list InterruptHook)) :=
  fun k =>
    match m_interrupts k !! Z.to_nat vec with
    | Some slot => (Ok slot, k)
    | None => (Fault OutOfBounds, k)
    end.

Definition interrupts_insert (vec : Z) (slot : option (list InterruptHook)) : K unit :=
  modify (fun k => set_interrupts (<[Z.to_nat vec := slot]> (m_interrupts k)) k).

(** Calls whose answer the kernel looks at. *)
Definition SplitAllocator_allocate (args : Range) : K (CallResult * Z) :=
  fun k =>
    let r := allocate_result env (trace k) args in
    (Ok r, add_event (EvAllocate args (fst r) (snd r)) k).

Definition ProcessManager_create (entryPoint : Z) (isBoot privileged : bool) : K (option Z) :=
  fun k =>
    let r := create_result env (trace k) entryPoint privileged in
    (Ok r, add_event (EvCreate entryPoint isBoot privileged r) k).

Definition MemoryContext_map (proc virt phys access : Z) : K CallResult :=
  fun k =>
    let r := map_result env (trace k) proc virt phys access in
    (Ok r, add_event (EvMap proc virt phys access r) k).

Definition MemoryContext_mapRange (proc : Z) (range : MemoryRange) : K CallResult :=
  fun k =>
    let r := mapRange_result env (trace k) proc range in
    (Ok r, add_event (EvMapRange proc range r) k).

Definition ProcessManager_interruptNotify (irq : Z) : K CallResult :=
  fun k =>
    let r := interruptNotify_result env (trace k) irq in
    (Ok r, add_event (EvInterruptNotify irq r) k).

Definition IntController_send (coreId irq : Z) : K CallResult :=
  fun k =>
    let r := send_result env (trace k) coreId irq in
    (Ok r, add_event (EvSend coreId irq r) k).

(** *** [Kernel::Kernel] *)

Definition Kernel_Kernel (fuel : nat) (info : CoreInfo) : K unit :=
  (* m_interrupts(256): 256 slots holding whatever the storage held *)
  modify (fun k => set_interrupts (resize 256 None (m_interrupts k)) k) ;;
  (if log_instance env
   then emit (EvAppend "BANNER") ;; emit (EvAppend "COPYRIGHT")
   else ret tt) ;;
  let kernelData := KernelData cfg in
  let physRange := mkRange (memory_phys info) (memory_size info) 0 in
  let virtRange := mkRange (mr_virt kernelData) (mr_size kernelData) 0 in
  emit (EvNewSplitAllocator physRange virtRange (PAGESIZE cfg)) ;;
  emit EvNewProcessManager ;;
  emit EvNewAPI ;;
  modify (set_coreInfo info) ;;
  modify (set_intControl None) ;;
  modify (set_timer None) ;;
  (* Mark first 4MB in phys memory used *)
  forLoop cfg fuel (1024 * 1024 * 4) (PAGESIZE cfg) 0
    (fun i => emit (EvAllocateAt (wrap cfg (memory_phys info + i)))) ;;
  (* Mark all kernel memory used *)
  forLoop cfg fuel (kernel_size info) (PAGESIZE cfg) 0
    (fun i => emit (EvAllocateAt (wrap cfg (kernel_phys info + i)))) ;;
  (* Mark BootImage memory used *)
  ci <- gets m_coreInfo ;;
  forLoop cfg fuel (bootImageSize ci) (PAGESIZE cfg) 0
    (fun i => emit (EvAllocateAt (wrap cfg (bootImageAddress ci + i)))) ;;
  (* Mark heap memory used *)
  forLoop cfg fuel (heapSize ci) (PAGESIZE cfg) 0
    (fun i => emit (EvAllocateAt (wrap cfg (heapAddress ci + i)))) ;;
  (* Reserve CoreChannel memory *)
  forLoop cfg fuel (coreChannelSize ci) (PAGESIZE cfg) 0
    (fun i => emit (EvAllocateAt (wrap cfg (coreChannelAddress ci + i)))) ;;
  (* Clear interrupts table *)
  modify (fun k => set_interrupts (fill None (m_interrupts k)) k).

(** *** [Kernel::heap] *)

Definition heap (base size : Z) : K Z :=
  let metaData := wrap cfg (sizeof_BubbleAllocator cfg + sizeof_PoolAllocator cfg) in
  let bubbleRange := mkRange (wrap cfg (base + metaData)) (wrap cfg (size - metaData)) 4 in
  let poolRange := mkRange 0 (wrap cfg (size - metaData)) 4 in
  (* Clear the heap first *)
  emit (EvMemorySet base 0 size) ;;
  (* Setup the dynamic memory heap *)
  let bubble := base in
  modify (fun k => set_objects
            (<[bubble := mkAllocatorObj BubbleAllocator bubbleRange None]> (objects k)) k) ;;
  let pool := wrap cfg (base + sizeof_BubbleAllocator cfg) in
  modify (fun k => set_objects
            (<[pool := mkAllocatorObj PoolAllocator poolRange None]> (objects k)) k) ;;
  (* pool->setParent(bubble) *)
  modify (fun k => set_objects
            (alter (fun o => mkAllocatorObj (a_kind o) (a_range o) (Some bubble))
                   pool (objects k)) k) ;;
  (* Set default allocator *)
  modify (set_defaultAllocator (Some pool)) ;;
  ret 0.

(** *** [Kernel::enableIRQ], [Kernel::sendIRQ] *)

Definition enableIRQ (irq : Z) (enabled : bool) : K unit :=
  ic <- gets m_intControl ;;
  match ic with
  | Some _ => if enabled then emit (EvEnable irq) else emit (EvDisable irq)
  | None => ret tt
  end.

Definition sendIRQ (coreId irq : Z) : K Result :=
  ic <- gets m_intControl ;;
  match ic with
  | Some _ =>
      r <- IntController_send coreId irq ;;
      match r with
      | CallSuccess => ret Success
      | CallFailure => ERROR "failed to send IPI to core" ;; ret IOError
      end
  | None => ret Success
  end.

(** *** [Kernel::hookIntVector] *)

Definition hookIntVector (vec h p : Z) : K unit :=
  let hook := mkInterruptHook h p in
  (* Insert into interrupts; create List if neccesary *)
  slot <- interrupts_at vec ;;
  (match slot with
   | None => interrupts_insert vec (Some [])
   | Some _ => ret tt
   end) ;;
  slot' <- interrupts_at vec ;;
  match slot' with
  | None => fault NullPointer
  | Some lst =>
      if negb (contains lst hook)
      then interrupts_insert vec (Some (append lst (mkInterruptHook h p)))
      else ret tt
  end.

(** *** [Kernel::executeIntVector]

    A handler is code outside the kernel class; the dispatch records the
    call and its three arguments. *)

Definition executeIntVector (vec state : Z) : K unit :=
  (* Auto-Mask the IRQ *)
  enableIRQ vec false ;;
  (* Fetch the list of interrupt hooks (for this vector) *)
  lst <- interrupts_at vec ;;
  (match lst with
   | Some hooks =>
       forEach hooks (fun i => emit (EvHandler (handler i) state (param i) vec))
   | None => ret tt
   end) ;;
  (* Raise any interrupt notifications for processes *)
  ic <- gets m_intControl ;;
  match ic with
  | None => fault NullPointer
  | Some c =>
      r <- ProcessManager_interruptNotify (wrap32 (vec - getBase c)) ;;
      match r with
      | CallSuccess => ret tt
      | CallFailure => FATAL "failed to raise interrupt notification for IRQ #"
      end
  end.

(** *** [Kernel::loadBootProcess] *)

Definition loadBootProcess (fuel : nat) (image : BootImage) (imagePAddr index : Z)
    : K Result :=
  (* Point to the program and segments table *)
  let program := symbolAt image index in
  let segment := fun i => segmentAt image (segmentsOffset program + i) in
  (* Ignore non-BootProgram entries *)
  if negb (BootSymbolType_eqb (type program) BootProgram) &&
     negb (BootSymbolType_eqb (type program) BootPrivProgram)
  then ret InvalidBootImage
  else
      (* Create process *)
      proc <- ProcessManager_create (entry program) true
                (BootSymbolType_eqb (type program) BootPrivProgram) ;;
      match proc with
      | None => FATAL "failed to create boot program: " ;; ret ProcessError
      | Some mem =>
          (* Map program segment into it's virtual memory *)
          forLoop cfg fuel (segmentsCount program) 1 0 (fun i =>
            forLoop cfg fuel (seg_size (segment i)) (PAGESIZE cfg) 0 (fun j =>
              _ <- MemoryContext_map mem
                       (wrap cfg (virtualAddress (segment i) + j))
                       (wrap cfg (imagePAddr + offset (segment i) + j))
                       (Z.lor (Z.lor (Z.lor (Memory_User cfg) (Memory_Readable cfg))
                                     (Memory_Writable cfg))
                              (Memory_Executable cfg)) ;;
              ret tt)) ;;
          (* Allocate page for program arguments *)
          let argRange := UserArgs cfg in
          let argRange :=
            mkMemoryRange (mr_virt argRange) (mr_phys argRange) (mr_size argRange)
              (Z.lor (Z.lor (Memory_User cfg) (Memory_Readable cfg)) (Memory_Writable cfg)) in
          let alloc_args := mkRange 0 (mr_size argRange) (PAGESIZE cfg) in
          r <- SplitAllocator_allocate alloc_args ;;
          match fst r with
          | CallFailure => FATAL "failed to allocate program arguments page" ;; ret ProcessError
          | CallSuccess =>
              let argRange :=
                mkMemoryRange (mr_virt argRange) (snd r) (mr_size argRange)
                              (mr_access argRange) in
              (* Map program arguments in the process *)
              r' <- MemoryContext_mapRange mem argRange ;;
              match r' with
              | CallFailure => FATAL "failed to map program arguments page" ;; ret ProcessError
              | CallSuccess =>
                  (* Copy program arguments *)
                  let vaddr := toVirtual env (mr_phys argRange) in
                  emit (EvMemorySet vaddr 0 (mr_size argRange)) ;;
                  emit (EvMemoryCopy vaddr (name program) (BOOTIMAGE_NAMELEN cfg)) ;;
                  (* Done *)
                  NOTICE "loaded: " ;;
                  ret Success
              end
          end
      end.

(** *** [Kernel::loadBootImage] *)

Definition loadBootImage (fuel : nat) : K Result :=
  ci <- gets m_coreInfo ;;
  let image := bootImageAt env (toVirtual env (bootImageAddress ci)) in
  NOTICE "bootimage: " ;;
  (* Verify this is a correct BootImage *)
  if (magic0 image =? BOOTIMAGE_MAGIC0 cfg) &&
     (magic1 image =? BOOTIMAGE_MAGIC1 cfg) &&
     (layoutRevision image =? BOOTIMAGE_REVISION cfg)
  then
    (* Loop BootPrograms *)
    forLoop cfg fuel (symbolTableCount image) 1 0 (fun i =>
      _ <- loadBootProcess fuel image (bootImageAddress ci) i ;;
      ret tt) ;;
    ret Success
  else
    ERROR "invalid boot image signature: " ;;
    ret InvalidBootImage.

(** *** [Kernel::run] *)

Definition run (fuel : nat) : K Z :=
  NOTICE EmptyString ;;
  (* Load boot image programs *)
  _ <- loadBootImage fuel ;;
  (* Start the scheduler *)
  emit EvSchedule ;;
  (* Never actually returns. *)
  ret 0.

End KernelCode.

(** ** Vocabulary of the statements *)

(** The values [0, stride, 2*stride, ...] below [bound]: what a counting
    loop visits when its counter does not wrap. *)
Definition pageCount (bound stride : Z) : nat :=
  Z.to_nat ((bound + stride - 1) / stride).

Definition offsets (bound stride : Z) : list Z :=
  (fun j => Z.of_nat j * stride) <$> seq 0 (pageCount bound stride).

(** Reserving a region page by page. *)
Definition reserve (cfg : Platform) (base bytes : Z) : list Event :=
  (fun i => EvAllocateAt (wrap cfg (base + i))) <$> offsets bytes (PAGESIZE cfg).

(** The hooks registered for a vector. *)
Definition hooks_of (k : KernelState) (vec : Z) : list InterruptHook :=
  match m_interrupts k !! Z.to_nat vec with
  | Some (Some lst) => lst
  | _ => []
  end.

(** The handler calls of a dispatch, in the order of the hook list. *)
Definition handler_calls (hooks : list InterruptHook) (state vec : Z) : list Event :=
  (fun hk => EvHandler (handler hk) state (param hk) vec) <$> hooks.

Definition add_events (es : list Event) (k : KernelState) : KernelState :=
  mkKernelState (m_interrupts k) (m_intControl k) (m_timer k) (m_coreInfo k)
                (objects k) (defaultAllocator k) (trace k ++ es).

Definition is_handler_call (e : Event) : bool :=
  match e with EvHandler _ _ _ _ => true | _ => false end.

Definition is_create (e : Event) : bool :=
  match e with EvCreate _ _ _ _ => true | _ => false end.

Definition is_allocate (e : Event) : bool :=
  match e with EvAllocate _ _ _ => true | _ => false end.

(** The magic words and the revision of an image are the expected ones. *)
Definition header_matches (cfg : Platform) (image : BootImage) : Prop :=
  magic0 image = BOOTIMAGE_MAGIC0 cfg /\
  magic1 image = BOOTIMAGE_MAGIC1 cfg /\
  layoutRevision image = BOOTIMAGE_REVISION cfg.

(** The image the kernel finds at the boot image address. *)
Definition bootImage_of (env : Env) (k : KernelState) : BootImage :=
  bootImageAt env (toVirtual env (bootImageAddress (m_coreInfo k))).

(** One iteration of the loop of [loadBootImage]. *)
Definition loadEntry (cfg : Platform) (env : Env) (fuel : nat) (image : BootImage)
    (imagePAddr : Z) (i : Z) : K unit :=
  _ <- loadBootProcess cfg env fuel image imagePAddr i ;; ret tt.

(** The region sizes of a [CoreInfo] for which the reservation loops of
    the constructor finish within the fuel without their counter
    wrapping. *)
Definition region_fits (cfg : Platform) (fuel : nat) (bytes : Z) : bool :=
  (0 <=? bytes) && (bytes + PAGESIZE cfg <=? 2 ^ WORD_BITS cfg) &&
  (Z.of_nat (pageCount bytes (PAGESIZE cfg)) <? Z.of_nat fuel).

Definition layout_fits (cfg : Platform) (fuel : nat) (info : CoreInfo) : bool :=
  (0 <? PAGESIZE cfg) &&
  region_fits cfg fuel (1024 * 1024 * 4) &&
  region_fits cfg fuel (kernel_size info) &&
  region_fits cfg fuel (bootImageSize info) &&
  region_fits cfg fuel (heapSize info) &&
  region_fits cfg fuel (coreChannelSize info).

(** The reading of the heap layout in which the bump allocator manages the
    metadata bytes [base, base + metaData). *)
Definition bubble_over_metadata (cfg : Platform) (base : Z) (k : KernelState) : Prop :=
  exists b,
    objects k !! base = Some b /\
    a_kind b = BubbleAllocator /\
    address (a_range b) = base /\
    range_size (a_range b) =
      wrap cfg (sizeof_BubbleAllocator cfg + sizeof_PoolAllocator cfg).

(** The allocator objects in memory after [heap base size]. *)
Definition heap_objects (cfg : Platform) (base size : Z) (objs : gmap Z AllocatorObj)
    : gmap Z AllocatorObj :=
  let metaData := wrap cfg (sizeof_BubbleAllocator cfg + sizeof_PoolAllocator cfg) in
  let pool := wrap cfg (base + sizeof_BubbleAllocator cfg) in
  alter (fun o => mkAllocatorObj (a_kind o) (a_range o) (Some base)) pool
    (<[pool := mkAllocatorObj PoolAllocator
                 (mkRange 0 (wrap cfg (size - metaData)) 4) None]>
       (<[base := mkAllocatorObj BubbleAllocator
                    (mkRange (wrap cfg (base + metaData)) (wrap cfg (size - metaData)) 4)
                    None]> objs)).

(** What the constructor does before it touches the ledger. *)
Definition banner (env : Env) : list Event :=
  if log_instance env then [EvAppend "BANNER"; EvAppend "COPYRIGHT"] else [].

Definition collaborators (cfg : Platform) (info : CoreInfo) : list Event :=
  [EvNewSplitAllocator (mkRange (memory_phys info) (memory_size info) 0)
                       (mkRange (mr_virt (KernelData cfg)) (mr_size (KernelData cfg)) 0)
                       (PAGESIZE cfg);
   EvNewProcessManager;
   EvNewAPI].

(** The five reservations of the constructor, in its order. *)
Definition boot_reservations (cfg : Platform) (info : CoreInfo) : list Event :=
  reserve cfg (memory_phys info) (1024 * 1024 * 4) ++
  reserve cfg (kernel_phys info) (kernel_size info) ++
  reserve cfg (bootImageAddress info) (bootImageSize info) ++
  reserve cfg (heapAddress info) (heapSize info) ++
  reserve cfg (coreChannelAddress info) (coreChannelSize info).

(** ** Sample data

    A 32-bit target with 4 KiB pages, used to evaluate the code on
    concrete inputs. *)

Module Sample.

Definition intel : Platform :=
  {| WORD_BITS := 32;
     PAGESIZE := 4096;
     sizeof_BubbleAllocator := 24;
     sizeof_PoolAllocator := 148;
     BOOTIMAGE_MAGIC0 := 0x65657246;
     BOOTIMAGE_MAGIC1 := 0x01534f4e;
     BOOTIMAGE_REVISION := 2;
     BOOTIMAGE_NAMELEN := 32;
     KernelData := mkMemoryRange 0 0 (1024 * 1024 * 128) 0;
     UserArgs := mkMemoryRange 0x9ffff000 0 4096 0;
     Memory_User := 1;
     Memory_Readable := 2;
     Memory_Writable := 4;
     Memory_Executable := 8 |}.

Definition info : CoreInfo :=
  {| memory_phys := 0;
     memory_size := 1024 * 1024 * 128;
     kernel_phys := 0x100000;
     kernel_size := 0x3000;
     bootImageAddress := 0x800000;
     bootImageSize := 0x2000;
     heapAddress := 0x900000;
     heapSize := 0x4000;
     coreChannelAddress := 0xa00000;
     coreChannelSize := 0x1000 |}.

(** A kernel after construction, without and with an interrupt
    controller. *)
Definition k0 : KernelState :=
  {| m_interrupts := replicate 256 None;
     m_intControl := None;
     m_timer := None;
     m_coreInfo := info;
     objects := ∅;
     defaultAllocator := None;
     trace := [] |}.

Definition pic : IntController := {| getBase := 32 |}.

Definition k1 : KernelState := set_intControl (Some pic) k0.

(** The same kernel with two hooks on the keyboard vector. *)
Definition keyboard : InterruptHook := {| handler := 0xc0100000; param := 7 |}.
Definition keyboard' : InterruptHook := {| handler := 0xc0100000; param := 8 |}.

Definition k2 : KernelState :=
  set_interrupts (<[33%nat := Some [keyboard; keyboard']]> (m_interrupts k1)) k1.

(** Programs and segments of the sample images. *)
Definition init : BootSymbol :=
  {| name := "init"; type := BootProgram; entry := 0x80000000;
     segmentsOffset := 0; segmentsCount := 1 |}.

Definition ramdisk : BootSymbol :=
  {| name := "ramdisk"; type := BootOther; entry := 0;
     segmentsOffset := 1; segmentsCount := 1 |}.

Definition text : BootSegment :=
  {| virtualAddress := 0x80000000; seg_size := 4096; offset := 0x1000 |}.

Definition symbols (tbl : list BootSymbol) (i : Z) : BootSymbol :=
  default ramdisk (tbl !! Z.to_nat i).

Definition image (tbl : list BootSymbol) : BootImage :=
  {| magic0 := 0x65657246;
     magic1 := 0x01534f4e;
     layoutRevision := 2;
     symbolTableOffset := 32;
     symbolTableCount := Z.of_nat (length tbl);
     segmentsTableOffset := 512;
     symbolAt := symbols tbl;
     segmentAt := fun _ => text |}.

Definition badImage : BootImage :=
  {| magic0 := 0x7f454c46;
     magic1 := 0x01534f4e;
     layoutRevision := 2;
     symbolTableOffset := 32;
     symbolTableCount := 1;
     segmentsTableOffset := 512;
     symbolAt := symbols [init];
     segmentAt := fun _ => text |}.

(** Collaborators that always succeed, except that every page mapping
    into a process answers [mapAnswer] and every interrupt notification
    answers [notifyAnswer]. *)
Definition env (img : BootImage) (mapAnswer notifyAnswer : CallResult) : Env :=
  {| log_instance := true;
     toVirtual := fun a => a;
     bootImageAt := fun _ => img;
     create_result := fun t _ _ => Some (Z.of_nat (length (filter is_create t)) + 1);
     map_result := fun _ _ _ _ _ => mapAnswer;
     allocate_result := fun _ _ => (CallSuccess, 0x1000000);
     mapRange_result := fun _ _ _ => CallSuccess;
     interruptNotify_result := fun _ _ => notifyAnswer;
     send_result := fun _ _ _ => CallSuccess |}.

End Sample.

(** ** Accessors and further vocabulary *)

(** [Kernel::getCoreInfo] and [Kernel::getTimer]. *)
Definition getCoreInfo : K CoreInfo := gets m_coreInfo.
Definition getTimer : K (option Z) := gets m_timer.

(** A page mapping requested from a memory context, without its answer. *)
Record MapRequest := mkMapRequest {
  rq_proc : Z;
  rq_virt : Z;
  rq_phys : Z;
  rq_access : Z
}.

Definition is_map_of (rq : MapRequest) (e : Event) : Prop :=
  exists res, e = EvMap (rq_proc rq) (rq_virt rq) (rq_phys rq) (rq_access rq) res.

Definition access_code (cfg : Platform) : Z :=
  Z.lor (Z.lor (Z.lor (Memory_User cfg) (Memory_Readable cfg)) (Memory_Writable cfg))
        (Memory_Executable cfg).

Definition access_args (cfg : Platform) : Z :=
  Z.lor (Z.lor (Memory_User cfg) (Memory_Readable cfg)) (Memory_Writable cfg).

(** The pages of one segment, and of all segments of a program, in the
    order of the two loops of [loadBootProcess]. *)
Definition segment_requests (cfg : Platform) (mem imagePAddr : Z) (seg : BootSegment)
    : list MapRequest :=
  (fun j => mkMapRequest mem
              (wrap cfg (virtualAddress seg + j))
              (wrap cfg (imagePAddr + offset seg + j))
              (access_code cfg))
    <$> offsets (seg_size seg) (PAGESIZE cfg).

Definition program_requests (cfg : Platform) (image : BootImage) (mem imagePAddr : Z)
    (program : BootSymbol) : list MapRequest :=
  concat ((fun i => segment_requests cfg mem imagePAddr
                      (segmentAt image (segmentsOffset program + i)))
            <$> offsets (segmentsCount program) 1).

(** The arguments range handed to [mapRange], and the events that finish
    a load once the arguments page is at [phys]. *)
Definition args_range (cfg : Platform) (phys : Z) : MemoryRange :=
  mkMemoryRange (mr_virt (UserArgs cfg)) phys (mr_size (UserArgs cfg)) (access_args cfg).

Definition args_request (cfg : Platform) : Range :=
  mkRange 0 (mr_size (UserArgs cfg)) (PAGESIZE cfg).

(** The process creations recorded in a trace: entry point and privilege. *)
Definition creations (t : list Event) : list (Z * bool) :=
  omap (fun e => match e with
                 | EvCreate entryPoint _ privileged _ => Some (entryPoint, privileged)
                 | _ => None
                 end) t.

(** The programs of an image, in table order, as [create] is asked for
    them. *)
Definition program_entries (image : BootImage) : list (Z * bool) :=
  omap (fun i =>
          let program := symbolAt image i in
          match type program with
          | BootOther => None
          | ty => Some (entry program, BootSymbolType_eqb ty BootPrivProgram)
          end)
       (offsets (symbolTableCount image) 1).

(** Collaborators that succeed in everything for every history and every
    request. *)
Definition always_succeeds (env : Env) : Prop :=
  (forall t e p, create_result env t e p <> None) /\
  (forall t a, fst (allocate_result env t a) = CallSuccess) /\
  (forall t p r, mapRange_result env t p r = CallSuccess).

(** Every segment the image can show has a size whose page loop ends
    within the fuel, and so has every segment count. *)
Definition segments_fit (cfg : Platform) (fuel : nat) (image : BootImage) : Prop :=
  0 < PAGESIZE cfg /\
  (forall i, region_fits cfg fuel (seg_size (segmentAt image i)) = true) /\
  (forall i, segmentsCount (symbolAt image i) + 1 <= 2 ^ WORD_BITS cfg /\
             (pageCount (segmentsCount (symbolAt image i)) 1 < fuel)%nat).

(** The two nested loops of [loadBootProcess] that map the segments of a
    program into the memory context [mem], and the rest of the function
    from the allocation of the arguments page on. *)
Definition loadBootProcess_segments (cfg : Platform) (env : Env) (fuel : nat)
    (image : BootImage) (imagePAddr mem : Z) (program : BootSymbol) : K unit :=
  forLoop cfg fuel (segmentsCount program) 1 0 (fun i =>
    forLoop cfg fuel (seg_size (segmentAt image (segmentsOffset program + i)))
      (PAGESIZE cfg) 0 (fun j =>
        _ <- MemoryContext_map env mem
               (wrap cfg (virtualAddress (segmentAt image (segmentsOffset program + i)) + j))
               (wrap cfg (imagePAddr + offset (segmentAt image (segmentsOffset program + i)) + j))
               (access_code cfg) ;;
        ret tt)).

Definition loadBootProcess_arguments (cfg : Platform) (env : Env) (mem : Z)
    (program : BootSymbol) : K Result :=
  r <- SplitAllocator_allocate env (args_request cfg) ;;
  match fst r with
  | CallFailure => FATAL "failed to allocate program arguments page" ;; ret ProcessError
  | CallSuccess =>
      r' <- MemoryContext_mapRange env mem (args_range cfg (snd r)) ;;
      match r' with
      | CallFailure => FATAL "failed to map program arguments page" ;; ret ProcessError
      | CallSuccess =>
          emit (EvMemorySet (toVirtual env (snd r)) 0 (mr_size (UserArgs cfg))) ;;
          emit (EvMemoryCopy (toVirtual env (snd r)) (name program) (BOOTIMAGE_NAMELEN cfg)) ;;
          NOTICE "loaded: " ;;
          ret Success
      end
  end.

(** The events that end a successful load, the arguments page being at
    [phys]. *)
Definition arguments_events (cfg : Platform) (env : Env) (mem phys : Z)
    (program : BootSymbol) : list Event :=
  [EvAllocate (args_request cfg) CallSuccess phys;
   EvMapRange mem (args_range cfg phys) CallSuccess;
   EvMemorySet (toVirtual env phys) 0 (mr_size (UserArgs cfg));
   EvMemoryCopy (toVirtual env phys) (name program) (BOOTIMAGE_NAMELEN cfg);
   EvLog Notice "loaded: "].

(** Further sample data: collaborators with chosen answers, an image of
    two programs, and a machine description whose kernel image is larger
    than the loop counter can reach. *)
Module Cases.

Definition env (img : BootImage) (createAnswer : option Z)
    (allocateAnswer rangeAnswer sendAnswer : CallResult) : Env :=
  {| log_instance := false;
     toVirtual := fun a => a + 0xc0000000;
     bootImageAt := fun _ => img;
     create_result := fun _ _ _ => createAnswer;
     map_result := fun _ _ _ _ _ => CallSuccess;
     allocate_result := fun _ _ => (allocateAnswer, 0x1000000);
     mapRange_result := fun _ _ _ => rangeAnswer;
     interruptNotify_result := fun _ _ => CallSuccess;
     send_result := fun _ _ _ => sendAnswer |}.

Definition server : BootSymbol :=
  {| name := "server"; type := BootPrivProgram; entry := 0x80001000;
     segmentsOffset := 0; segmentsCount := 2 |}.

Definition programs : list BootSymbol := [Sample.init; Sample.ramdisk; server].

(** An image of these three entries; the server has a text segment of one
    page and a data segment of a page and a half. *)
Definition data : BootSegment :=
  {| virtualAddress := 0x80400000; seg_size := 0x1800; offset := 0x2000 |}.

Definition unused : BootSegment :=
  {| virtualAddress := 0; seg_size := 0; offset := 0 |}.

Definition segments (i : Z) : BootSegment :=
  if i =? 0 then Sample.text else if i =? 1 then data else unused.

Definition image : BootImage :=
  {| magic0 := 0x65657246;
     magic1 := 0x01534f4e;
     layoutRevision := 2;
     symbolTableOffset := 32;
     symbolTableCount := 3;
     segmentsTableOffset := 512;
     symbolAt := Sample.symbols programs;
     segmentAt := segments |}.

(** An image whose only program has a segment that reaches past the last
    page boundary of the address space. *)
Definition huge : BootSegment :=
  {| virtualAddress := 0x80000000; seg_size := 0xfffff001; offset := 0x1000 |}.

Definition hugeImage : BootImage :=
  {| magic0 := 0x65657246;
     magic1 := 0x01534f4e;
     layoutRevision := 2;
     symbolTableOffset := 32;
     symbolTableCount := 1;
     segmentsTableOffset := 512;
     symbolAt := Sample.symbols [Sample.init];
     segmentAt := fun _ => huge |}.

Definition oversized : CoreInfo :=
  {| memory_phys := 0;
     memory_size := 1024 * 1024 * 128;
     kernel_phys := 0x100000;
     kernel_size := 0xfffff001;
     bootImageAddress := 0x800000;
     bootImageSize := 0x2000;
     heapAddress := 0x900000;
     heapSize := 0x4000;
     coreChannelAddress := 0xa00000;
     coreChannelSize := 0x1000 |}.

End Cases.

(** * Properties *)

Local Ltac kstep := unfold bind, ret, gets, modify, emit, halt, fault, outOfFuel; simpl.

Lemma bind_Ok {A B} (m : K A) (f : A -> K B) k a k' :
  m k = (Ok a, k') -> bind m f k = f a k'.
Proof. intros H. unfold bind. now rewrite H. Qed.

Lemma add_events_nil k : add_events [] k = k.
Proof. destruct k. unfold add_events. simpl. now rewrite app_nil_r. Qed.

Lemma add_events_app es es' k :
  add_events es' (add_events es k) = add_events (es ++ es') k.
Proof. unfold add_events. simpl. now rewrite app_assoc. Qed.

Lemma add_event_events e k : add_event e k = add_events [e] k.
Proof. reflexivity. Qed.

(** ** Counting loops *)

Lemma pageCount_covers bound stride :
  0 < stride -> bound <= Z.of_nat (pageCount bound stride) * stride.
Proof.
  intros Hs. unfold pageCount.
  destruct (Z.le_gt_cases bound 0) as [Hb | Hb].
  - assert (0 <= Z.of_nat (Z.to_nat ((bound + stride - 1) / stride))) by lia. nia.
  - assert (Hq : 0 <= (bound + stride - 1) / stride) by (apply Z.div_pos; lia).
    rewrite Z2Nat.id by exact Hq.
    pose proof (Z.div_mod (bound + stride - 1) stride ltac:(lia)).
    pose proof (Z.mod_pos_bound (bound + stride - 1) stride Hs). nia.
Qed.

Lemma pageCount_below bound stride j :
  0 < stride -> (j < pageCount bound stride)%nat -> Z.of_nat j * stride < bound.
Proof.
  intros Hs Hj. unfold pageCount in Hj.
  assert (Hq : Z.of_nat j < (bound + stride - 1) / stride) by lia.
  pose proof (Z.div_mod (bound + stride - 1) stride ltac:(lia)).
  pose proof (Z.mod_pos_bound (bound + stride - 1) stride Hs). nia.
Qed.

Lemma forLoop_from cfg bound stride body :
  0 < stride -> bound + stride <= 2 ^ WORD_BITS cfg ->
  forall m fuel i,
    0 <= i -> (m < fuel)%nat ->
    bound <= i + Z.of_nat m * stride ->
    (forall j, (j < m)%nat -> i + Z.of_nat j * stride < bound) ->
    forLoop cfg fuel bound stride i body =
    forEach ((fun j => i + Z.of_nat j * stride) <$> seq 0 m) body.
Proof.
  intros Hs Hw. induction m as [| m IH]; intros fuel i Hi Hf Hcov Hbelow.
  - destruct fuel as [| fuel]; [lia |]. simpl.
    destruct (Z.ltb_spec i bound); [lia | reflexivity].
  - destruct fuel as [| fuel]; [lia |].
    pose proof (Hbelow 0%nat ltac:(lia)) as H0.
    cbn [forLoop]. destruct (Z.ltb_spec i bound); [| lia].
    assert (Hwrap : wrap cfg (i + stride) = i + stride).
    { unfold wrap. apply Z.mod_small. lia. }
    assert (Hl : (fun j => i + Z.of_nat j * stride) <$> seq 1 m =
                 (fun j => i + stride + Z.of_nat j * stride) <$> seq 0 m).
    { rewrite <- fmap_S_seq, <- list_fmap_compose.
      apply list_fmap_ext. intros _ j _. simpl. lia. }
    rewrite Hwrap, (IH fuel (i + stride)); try lia.
    + change (seq 0 (S m)) with (0%nat :: seq 1 m).
      rewrite fmap_cons, Hl. cbn [forEach].
      replace (i + Z.of_nat 0 * stride) with i by lia. reflexivity.
    + intros j Hj. pose proof (Hbelow (S j) ltac:(lia)). lia.
Qed.

Lemma forLoop_unroll cfg fuel bound stride body :
  0 < stride -> bound + stride <= 2 ^ WORD_BITS cfg ->
  (pageCount bound stride < fuel)%nat ->
  forLoop cfg fuel bound stride 0 body = forEach (offsets bound stride) body.
Proof.
  intros Hs Hw Hf. unfold offsets.
  rewrite (forLoop_from cfg bound stride body Hs Hw (pageCount bound stride)); try lia.
  - f_equal.
  - pose proof (pageCount_covers bound stride Hs). lia.
  - intros j Hj. pose proof (pageCount_below bound stride j Hs Hj). lia.
Qed.

Lemma forEach_emit {T} (l : list T) (ev : T -> Event) k :
  forEach l (fun x => emit (ev x)) k = (Ok tt, add_events (ev <$> l) k).
Proof.
  revert k. induction l as [| x l IH]; intros k; simpl.
  - now rewrite add_events_nil.
  - unfold bind, emit, modify. rewrite IH, add_event_events, add_events_app.
    reflexivity.
Qed.

(** ** The heap *)

Lemma heap_run cfg base size k :
  heap cfg base size k =
  (Ok 0,
   set_defaultAllocator (Some (wrap cfg (base + sizeof_BubbleAllocator cfg)))
     (set_objects (heap_objects cfg base size (objects k))
        (add_event (EvMemorySet base 0 size) k))).
Proof. reflexivity. Qed.

Lemma heap_objects_bubble cfg base size objs :
  wrap cfg (base + sizeof_BubbleAllocator cfg) <> base ->
  heap_objects cfg base size objs !! base =
  Some (mkAllocatorObj BubbleAllocator
          (mkRange
             (wrap cfg (base + wrap cfg (sizeof_BubbleAllocator cfg + sizeof_PoolAllocator cfg)))
             (wrap cfg (size - wrap cfg (sizeof_BubbleAllocator cfg + sizeof_PoolAllocator cfg)))
             4)
          None).
Proof.
  intros Hne. unfold heap_objects.
  rewrite lookup_alter_ne by exact Hne.
  rewrite lookup_insert_ne by exact Hne.
  apply lookup_insert_eq.
Qed.

(** C1, as amended.  [heap base size] returns 0 after clearing the range;
    the metadata size is the sum of the two control block sizes; the bump
    allocator's control block is placed at [base] and manages the bytes
    after the metadata, [size - metaData] bytes from [base + metaData];
    the pool allocator's control block is placed behind it and manages
    [size - metaData] bytes addressed from zero; the pool's parent is the
    bump allocator, and the pool is the default allocator. *)
Theorem heap_layout cfg base size k :
  wrap cfg (base + sizeof_BubbleAllocator cfg) <> base ->
  let metaData := wrap cfg (sizeof_BubbleAllocator cfg + sizeof_PoolAllocator cfg) in
  let pool := wrap cfg (base + sizeof_BubbleAllocator cfg) in
  exists k',
    heap cfg base size k = (Ok 0, k') /\
    trace k' = trace k ++ [EvMemorySet base 0 size] /\
    objects k' !! base =
      Some (mkAllocatorObj BubbleAllocator
              (mkRange (wrap cfg (base + metaData)) (wrap cfg (size - metaData)) 4)
              None) /\
    objects k' !! pool =
      Some (mkAllocatorObj PoolAllocator
              (mkRange 0 (wrap cfg (size - metaData)) 4)
              (Some base)) /\
    defaultAllocator k' = Some pool.
Proof.
  intros Hne metaData pool. eexists. split; [apply heap_run |]. simpl.
  split; [reflexivity |]. split; [| split; [| reflexivity]].
  - now apply heap_objects_bubble.
  - unfold heap_objects. rewrite lookup_alter_eq, lookup_insert_eq. reflexivity.
Qed.

Lemma heap_layout_witness :
  exists k',
    heap Sample.intel 0x900000 0x4000 Sample.k0 = (Ok 0, k') /\
    trace k' = [EvMemorySet 0x900000 0 0x4000] /\
    objects k' !! 0x900000 =
      Some (mkAllocatorObj BubbleAllocator (mkRange 0x9000ac 0x3f54 4) None) /\
    objects k' !! 0x900018 =
      Some (mkAllocatorObj PoolAllocator (mkRange 0 0x3f54 4) (Some 0x900000)) /\
    defaultAllocator k' = Some 0x900018.
Proof.
  apply (heap_layout Sample.intel 0x900000 0x4000 Sample.k0).
  vm_compute. discriminate.
Defined.

(** C1, as stated, fails: on the sample target the bump allocator built by
    [heap 0x900000 0x4000] does not manage [base, base + metaData). *)
Lemma heap_bubble_range_counterexample :
  ~ bubble_over_metadata Sample.intel 0x900000
      (snd (heap Sample.intel 0x900000 0x4000 Sample.k0)).
Proof.
  intros (b & Hb & _ & Haddr & _).
  rewrite heap_run in Hb. simpl in Hb.
  rewrite heap_objects_bubble in Hb by (vm_compute; discriminate).
  injection Hb as <-. vm_compute in Haddr. discriminate.
Qed.

(** The same holds on every target whose control blocks have a size. *)
Lemma heap_bubble_range_starts_after_metadata cfg base size k :
  0 <= base < 2 ^ WORD_BITS cfg ->
  0 < sizeof_BubbleAllocator cfg ->
  0 < sizeof_PoolAllocator cfg ->
  sizeof_BubbleAllocator cfg + sizeof_PoolAllocator cfg < 2 ^ WORD_BITS cfg ->
  ~ bubble_over_metadata cfg base (snd (heap cfg base size k)).
Proof.
  intros Hbase Hb Hp Hsum (b & Hlk & _ & Haddr & _).
  assert (Hmod : forall d, 0 < d < 2 ^ WORD_BITS cfg -> wrap cfg (base + d) <> base).
  { intros d Hd Heq. unfold wrap in Heq.
    destruct (Z.lt_ge_cases (base + d) (2 ^ WORD_BITS cfg)) as [Hlt | Hge].
    - rewrite Z.mod_small in Heq by lia. lia.
    - replace (base + d) with (base + d - 2 ^ WORD_BITS cfg + 1 * 2 ^ WORD_BITS cfg)
        in Heq by lia.
      rewrite Z.mod_add in Heq by lia. rewrite Z.mod_small in Heq by lia. lia. }
  rewrite heap_run in Hlk. simpl in Hlk.
  rewrite heap_objects_bubble in Hlk by (apply Hmod; lia).
  injection Hlk as <-. simpl in Haddr.
  revert Haddr. apply Hmod. unfold wrap. rewrite Z.mod_small by lia. lia.
Qed.

(** ** Interrupt hooks *)

Lemma hook_eqb_eq a b : hook_eqb a b = true <-> a = b.
Proof.
  unfold hook_eqb. rewrite andb_true_iff, !Z.eqb_eq.
  destruct a, b; simpl. split; [intros [-> ->]; reflexivity | intros [= -> ->]; auto].
Qed.

Lemma contains_In lst hook : contains lst hook = true <-> In hook lst.
Proof.
  unfold contains. rewrite existsb_exists. split.
  - intros (x & Hx & Heq). apply hook_eqb_eq in Heq. now subst.
  - intros Hin. exists hook. split; [exact Hin | now apply hook_eqb_eq].
Qed.

Lemma contains_append lst hook hook' :
  contains (append lst hook) hook' = contains lst hook' || hook_eqb hook' hook.
Proof. unfold contains, append. rewrite existsb_app. simpl. now rewrite orb_false_r. Qed.

Lemma contains_append_same lst hook : contains (append lst hook) hook = true.
Proof. apply contains_In. unfold append. apply in_or_app. right. now left. Qed.

Lemma set_interrupts_lookup tbl k vec :
  hooks_of (set_interrupts tbl k) vec =
  match tbl !! Z.to_nat vec with Some (Some lst) => lst | _ => [] end.
Proof. reflexivity. Qed.

(** What one registration does, by the state of the slot. *)
Lemma hookIntVector_run vec h p k :
  (Z.to_nat vec < length (m_interrupts k))%nat ->
  let hook := mkInterruptHook h p in
  hookIntVector vec h p k =
  (Ok tt,
   if contains (hooks_of k vec) hook then k
   else set_interrupts
          (<[Z.to_nat vec := Some (append (hooks_of k vec) hook)]> (m_interrupts k)) k).
Proof.
  intros Hlen hook. unfold hookIntVector, hooks_of, interrupts_at, interrupts_insert.
  destruct (lookup_lt_is_Some_2 _ _ Hlen) as [slot Hslot].
  unfold bind at 1. rewrite Hslot. destruct slot as [lst |].
  - kstep. rewrite Hslot. fold hook. destruct (contains lst hook); reflexivity.
  - kstep. rewrite list_lookup_insert_eq by exact Hlen. simpl.
    now rewrite list_insert_insert_eq.
Qed.

Lemma hooks_of_registered vec lst k :
  (Z.to_nat vec < length (m_interrupts k))%nat ->
  hooks_of (set_interrupts (<[Z.to_nat vec := Some lst]> (m_interrupts k)) k) vec = lst.
Proof.
  intros Hlen. rewrite set_interrupts_lookup.
  now rewrite list_lookup_insert_eq by exact Hlen.
Qed.

(** C2.  Registering the same handler and parameter a second time changes
    nothing: after one call a further identical call leaves the kernel as
    it is, so a hook that was not registered is stored exactly once, at
    the end of the list; registering two different hooks stores both, in
    the order of the calls. *)
Theorem hookIntVector_idempotent vec h p h' p' k :
  (Z.to_nat vec < length (m_interrupts k))%nat ->
  let hook := mkInterruptHook h p in
  let hook' := mkInterruptHook h' p' in
  exists k1,
    hookIntVector vec h p k = (Ok tt, k1) /\
    (hookIntVector vec h p ;; hookIntVector vec h p) k = (Ok tt, k1) /\
    (contains (hooks_of k vec) hook = false ->
     hooks_of k1 vec = hooks_of k vec ++ [hook]) /\
    (contains (hooks_of k vec) hook = false ->
     contains (hooks_of k vec) hook' = false ->
     hook <> hook' ->
     exists k2,
       (hookIntVector vec h p ;; hookIntVector vec h' p') k = (Ok tt, k2) /\
       hooks_of k2 vec = hooks_of k vec ++ [hook; hook']).
Proof.
  intros Hlen hook hook'.
  pose proof (hookIntVector_run vec h p k Hlen) as Hrun. cbn zeta in Hrun. fold hook in Hrun.
  eexists. split; [exact Hrun |].
  destruct (contains (hooks_of k vec) hook) eqn:Hc.
  - split; [| split; [discriminate | discriminate]].
    unfold bind. rewrite Hrun, hookIntVector_run by exact Hlen. cbn zeta. fold hook.
    now rewrite Hc.
  - assert (Hlen' : (Z.to_nat vec <
      length (m_interrupts (set_interrupts
        (<[Z.to_nat vec := Some (append (hooks_of k vec) hook)]> (m_interrupts k)) k)))%nat).
    { simpl. now rewrite length_insert. }
    split; [| split].
    + unfold bind. rewrite Hrun, hookIntVector_run by exact Hlen'. cbn zeta. fold hook.
      now rewrite hooks_of_registered, contains_append_same by exact Hlen.
    + intros _. now rewrite hooks_of_registered by exact Hlen.
    + intros _ Hc' Hne. eexists. split.
      * unfold bind. rewrite Hrun, hookIntVector_run by exact Hlen'. cbn zeta. fold hook'.
        rewrite hooks_of_registered, contains_append, Hc' by exact Hlen.
        destruct (hook_eqb hook' hook) eqn:Heq.
        { apply hook_eqb_eq in Heq. congruence. }
        reflexivity.
      * cbn [orb]. rewrite hooks_of_registered by exact Hlen'.
        unfold append. now rewrite <- app_assoc.
Qed.

Lemma hookIntVector_idempotent_witness :
  exists k1,
    hookIntVector 33 0xc0100000 7 Sample.k0 = (Ok tt, k1) /\
    (hookIntVector 33 0xc0100000 7 ;; hookIntVector 33 0xc0100000 7) Sample.k0 = (Ok tt, k1) /\
    hooks_of k1 33 = [mkInterruptHook 0xc0100000 7] /\
    exists k2,
      (hookIntVector 33 0xc0100000 7 ;; hookIntVector 33 0xc0100000 8) Sample.k0 = (Ok tt, k2) /\
      hooks_of k2 33 = [mkInterruptHook 0xc0100000 7; mkInterruptHook 0xc0100000 8].
Proof.
  destruct (hookIntVector_idempotent 33 0xc0100000 7 0xc0100000 8 Sample.k0)
    as (k1 & H1 & H2 & H3 & H4).
  { vm_compute. lia. }
  exists k1. split; [exact H1 |]. split; [exact H2 |]. split.
  - apply H3. reflexivity.
  - apply H4; [reflexivity | reflexivity | discriminate].
Defined.

(** ** Interrupt dispatch *)

Lemma enableIRQ_installed irq enabled c k :
  m_intControl k = Some c ->
  enableIRQ irq enabled k =
  (Ok tt, add_event (if enabled then EvEnable irq else EvDisable irq) k).
Proof.
  intros Hc. unfold enableIRQ. kstep. rewrite Hc. now destruct enabled.
Qed.

Lemma enableIRQ_absent irq enabled k :
  m_intControl k = None -> enableIRQ irq enabled k = (Ok tt, k).
Proof. intros Hc. unfold enableIRQ. kstep. now rewrite Hc. Qed.

Lemma hooks_called (slot : option (list InterruptHook)) state vec k :
  (match slot with
   | Some hooks =>
       forEach hooks (fun i => emit (EvHandler (handler i) state (param i) vec))
   | None => ret tt
   end) k =
  (Ok tt, add_events (handler_calls (default [] slot) state vec) k).
Proof.
  destruct slot as [hooks |]; simpl.
  - apply forEach_emit.
  - unfold ret. now rewrite add_events_nil.
Qed.

(** The whole of a dispatch when a controller is installed. *)
Lemma executeIntVector_run env vec state c k :
  m_intControl k = Some c ->
  (Z.to_nat vec < length (m_interrupts k))%nat ->
  let k1 := add_events (EvDisable vec :: handler_calls (hooks_of k vec) state vec) k in
  let irq := wrap32 (vec - getBase c) in
  executeIntVector env vec state k =
  match interruptNotify_result env (trace k1) irq with
  | CallSuccess => (Ok tt, add_event (EvInterruptNotify irq CallSuccess) k1)
  | CallFailure =>
      (Halted,
       add_event (EvLog Emergency "failed to raise interrupt notification for IRQ #")
         (add_event (EvInterruptNotify irq CallFailure) k1))
  end.
Proof.
  intros Hc Hlen k1 irq.
  destruct (lookup_lt_is_Some_2 _ _ Hlen) as [slot Hslot].
  unfold executeIntVector.
  rewrite (bind_Ok _ _ _ _ _ (enableIRQ_installed vec false c k Hc)).
  unfold interrupts_at. unfold bind at 1. simpl. rewrite Hslot.
  assert (Hhooks :
    add_events (handler_calls (default [] slot) state vec) (add_event (EvDisable vec) k) = k1).
  { unfold k1, hooks_of. rewrite Hslot, add_event_events, add_events_app.
    now destruct slot. }
  rewrite (bind_Ok _ _ _ _ _ (hooks_called slot state vec _)), Hhooks.
  unfold bind at 1, gets. replace (m_intControl k1) with (Some c) by (symmetry; exact Hc).
  unfold ProcessManager_interruptNotify, FATAL. kstep. fold irq.
  destruct (interruptNotify_result env _ irq); reflexivity.
Qed.

(** C6.  With a controller installed, a dispatch of [vec] first disables
    [vec] at the controller, then calls the hooks registered for [vec] in
    the order of their list, each with the CPU state, its own parameter and
    the vector number; no other handler call follows. *)
Theorem executeIntVector_masks_then_runs_hooks env vec state c k :
  m_intControl k = Some c ->
  (Z.to_nat vec < length (m_interrupts k))%nat ->
  exists tail,
    trace (snd (executeIntVector env vec state k)) =
      trace k ++ EvDisable vec :: handler_calls (hooks_of k vec) state vec ++ tail /\
    forallb (fun e => negb (is_handler_call e)) tail = true.
Proof.
  intros Hc Hlen. rewrite (executeIntVector_run env vec state c k Hc Hlen).
  cbn zeta.
  destruct (interruptNotify_result _ _ _); eexists; simpl;
    rewrite <- ?app_assoc; simpl; (split; [reflexivity | reflexivity]).
Qed.

(** C7.  After the hooks have run, the dispatch notifies the process
    manager of the interrupt [vec - base], [base] being the controller's
    base; when the notification succeeds the dispatch returns, and when it
    fails the failure is logged as fatal and the system halts. *)
Theorem executeIntVector_notifies env vec state c k :
  m_intControl k = Some c ->
  (Z.to_nat vec < length (m_interrupts k))%nat ->
  let k1 := add_events (EvDisable vec :: handler_calls (hooks_of k vec) state vec) k in
  let irq := wrap32 (vec - getBase c) in
  (interruptNotify_result env (trace k1) irq = CallSuccess ->
   executeIntVector env vec state k =
   (Ok tt, add_event (EvInterruptNotify irq CallSuccess) k1)) /\
  (interruptNotify_result env (trace k1) irq = CallFailure ->
   executeIntVector env vec state k =
   (Halted,
    add_event (EvLog Emergency "failed to raise interrupt notification for IRQ #")
      (add_event (EvInterruptNotify irq CallFailure) k1))).
Proof.
  intros Hc Hlen k1 irq.
  pose proof (executeIntVector_run env vec state c k Hc Hlen) as Hrun.
  cbn zeta in Hrun. fold k1 irq in Hrun.
  split; intros Hr; rewrite Hr in Hrun; exact Hrun.
Qed.

(** C9.  Without a controller, a dispatch faults on the null controller
    when it computes the interrupt number of the notification, whereas
    [enableIRQ] does nothing and [sendIRQ] returns [Success], both leaving
    the kernel as it is. *)
Theorem executeIntVector_needs_controller env vec state irq enabled coreId k :
  m_intControl k = None ->
  (Z.to_nat vec < length (m_interrupts k))%nat ->
  fst (executeIntVector env vec state k) = Fault NullPointer /\
  enableIRQ irq enabled k = (Ok tt, k) /\
  sendIRQ env coreId irq k = (Ok Success, k).
Proof.
  intros Hc Hlen. split; [| split].
  - destruct (lookup_lt_is_Some_2 _ _ Hlen) as [slot Hslot].
    unfold executeIntVector.
    rewrite (bind_Ok _ _ _ _ _ (enableIRQ_absent vec false k Hc)).
    unfold interrupts_at. unfold bind at 1. rewrite Hslot.
    rewrite (bind_Ok _ _ _ _ _ (hooks_called slot state vec _)).
    kstep. now rewrite Hc.
  - now apply enableIRQ_absent.
  - unfold sendIRQ. kstep. now rewrite Hc.
Qed.

Lemma executeIntVector_masks_then_runs_hooks_witness :
  exists tail,
    trace (snd (executeIntVector (Sample.env (Sample.image []) CallSuccess CallSuccess)
                  33 0xc0001000 Sample.k2)) =
      [EvDisable 33;
       EvHandler 0xc0100000 0xc0001000 7 33;
       EvHandler 0xc0100000 0xc0001000 8 33] ++ tail /\
    forallb (fun e => negb (is_handler_call e)) tail = true.
Proof.
  apply (executeIntVector_masks_then_runs_hooks
           (Sample.env (Sample.image []) CallSuccess CallSuccess)
           33 0xc0001000 Sample.pic Sample.k2).
  - reflexivity.
  - vm_compute. lia.
Defined.

Lemma executeIntVector_notifies_witness :
  fst (executeIntVector (Sample.env (Sample.image []) CallSuccess CallSuccess)
         33 0xc0001000 Sample.k2) = Ok tt /\
  executeIntVector (Sample.env (Sample.image []) CallSuccess CallFailure)
    33 0xc0001000 Sample.k2 =
  (Halted,
   add_events
     [EvDisable 33;
      EvHandler 0xc0100000 0xc0001000 7 33;
      EvHandler 0xc0100000 0xc0001000 8 33;
      EvInterruptNotify 1 CallFailure;
      EvLog Emergency "failed to raise interrupt notification for IRQ #"]
     Sample.k2).
Proof.
  split.
  - destruct (executeIntVector_notifies
                (Sample.env (Sample.image []) CallSuccess CallSuccess)
                33 0xc0001000 Sample.pic Sample.k2) as [Hok _].
    + reflexivity.
    + vm_compute. lia.
    + rewrite Hok; reflexivity.
  - destruct (executeIntVector_notifies
                (Sample.env (Sample.image []) CallSuccess CallFailure)
                33 0xc0001000 Sample.pic Sample.k2) as [_ Hfail].
    + reflexivity.
    + vm_compute. lia.
    + rewrite Hfail; reflexivity.
Defined.

Lemma executeIntVector_needs_controller_witness :
  fst (executeIntVector (Sample.env (Sample.image []) CallSuccess CallSuccess)
         33 0xc0001000 Sample.k0) = Fault NullPointer /\
  enableIRQ 33 true Sample.k0 = (Ok tt, Sample.k0) /\
  sendIRQ (Sample.env (Sample.image []) CallSuccess CallSuccess) 1 33 Sample.k0 =
  (Ok Success, Sample.k0).
Proof.
  apply (executeIntVector_needs_controller
           (Sample.env (Sample.image []) CallSuccess CallSuccess)
           33 0xc0001000 33 true 1 Sample.k0).
  - reflexivity.
  - vm_compute. lia.
Defined.

(** ** Construction *)

Lemma bind_modify {B} (f : KernelState -> KernelState) (g : unit -> K B) k :
  bind (modify f) g k = g tt (f k).
Proof. reflexivity. Qed.

Lemma bind_emit {B} (e : Event) (g : unit -> K B) k :
  bind (emit e) g k = g tt (add_event e k).
Proof. reflexivity. Qed.

Lemma bind_gets {A B} (f : KernelState -> A) (g : A -> K B) k :
  bind (gets f) g k = g (f k) k.
Proof. reflexivity. Qed.

Lemma region_fits_spec cfg fuel bytes :
  region_fits cfg fuel bytes = true ->
  0 <= bytes /\ bytes + PAGESIZE cfg <= 2 ^ WORD_BITS cfg /\
  (pageCount bytes (PAGESIZE cfg) < fuel)%nat.
Proof.
  unfold region_fits. rewrite !andb_true_iff, !Z.leb_le, Z.ltb_lt. lia.
Qed.

Lemma reserve_loop cfg fuel base bytes k :
  0 < PAGESIZE cfg ->
  region_fits cfg fuel bytes = true ->
  forLoop cfg fuel bytes (PAGESIZE cfg) 0
    (fun i => emit (EvAllocateAt (wrap cfg (base + i)))) k =
  (Ok tt, add_events (reserve cfg base bytes) k).
Proof.
  intros Hp Hfit. apply region_fits_spec in Hfit as (_ & Hw & Hf).
  rewrite forLoop_unroll by assumption. apply forEach_emit.
Qed.

Lemma banner_run env k :
  (if log_instance env
   then emit (EvAppend "BANNER") ;; emit (EvAppend "COPYRIGHT")
   else ret tt) k = (Ok tt, add_events (banner env) k).
Proof.
  unfold banner. destruct (log_instance env).
  - rewrite bind_emit. unfold emit, modify.
    now rewrite !add_event_events, add_events_app.
  - unfold ret. now rewrite add_events_nil.
Qed.

Lemma reserve_no_allocate cfg base bytes :
  forallb (fun e => negb (is_allocate e)) (reserve cfg base bytes) = true.
Proof.
  unfold reserve. induction (offsets bytes (PAGESIZE cfg)) as [| i l IH]; simpl; auto.
Qed.

(** C8.  When every region fits the address space, construction returns
    and its calls on the physical memory ledger are exactly the page by
    page reservations of the first 4 MB, the kernel image, the boot image,
    the heap and the core channel, in this order; no allocation of a free
    range is requested during construction, and at the end the interrupt
    table has 256 entries, all of them empty. *)
Theorem Kernel_reserves_in_order cfg env fuel info k :
  layout_fits cfg fuel info = true ->
  exists k',
    Kernel_Kernel cfg env fuel info k = (Ok tt, k') /\
    trace k' =
      trace k ++ banner env ++ collaborators cfg info ++ boot_reservations cfg info /\
    forallb (fun e => negb (is_allocate e))
      (banner env ++ collaborators cfg info ++ boot_reservations cfg info) = true /\
    m_interrupts k' = replicate 256 None.
Proof.
  unfold layout_fits. rewrite !andb_true_iff, Z.ltb_lt.
  intros [[[[[Hp H4] Hk] Hb] Hh] Hc].
  unfold Kernel_Kernel.
  rewrite bind_modify, (bind_Ok _ _ _ _ _ (banner_run env _)).
  cbn zeta. rewrite !bind_emit, !bind_modify.
  rewrite (bind_Ok _ _ _ _ _ (reserve_loop cfg fuel _ _ _ Hp H4)).
  rewrite (bind_Ok _ _ _ _ _ (reserve_loop cfg fuel _ _ _ Hp Hk)).
  rewrite bind_gets.
  change (m_coreInfo (add_events _ (add_events _ _))) with info.
  rewrite (bind_Ok _ _ _ _ _ (reserve_loop cfg fuel _ _ _ Hp Hb)).
  rewrite (bind_Ok _ _ _ _ _ (reserve_loop cfg fuel _ _ _ Hp Hh)).
  rewrite (bind_Ok _ _ _ _ _ (reserve_loop cfg fuel _ _ _ Hp Hc)).
  eexists. split; [reflexivity |]. split; [| split].
  - unfold boot_reservations, collaborators. simpl.
    rewrite <- !app_assoc. reflexivity.
  - rewrite !forallb_app. unfold boot_reservations. rewrite !forallb_app.
    rewrite !reserve_no_allocate. unfold banner.
    destruct (log_instance env); reflexivity.
  - simpl. unfold fill. now rewrite length_resize.
Qed.

Lemma Kernel_reserves_in_order_witness :
  exists k',
    Kernel_Kernel Sample.intel (Sample.env (Sample.image []) CallSuccess CallSuccess)
      2000 Sample.info Sample.k2 = (Ok tt, k') /\
    trace k' =
      trace Sample.k2 ++
      banner (Sample.env (Sample.image []) CallSuccess CallSuccess) ++
      collaborators Sample.intel Sample.info ++
      boot_reservations Sample.intel Sample.info /\
    forallb (fun e => negb (is_allocate e))
      (banner (Sample.env (Sample.image []) CallSuccess CallSuccess) ++
       collaborators Sample.intel Sample.info ++
       boot_reservations Sample.intel Sample.info) = true /\
    m_interrupts k' = replicate 256 None.
Proof.
  apply (Kernel_reserves_in_order Sample.intel
           (Sample.env (Sample.image []) CallSuccess CallSuccess)
           2000 Sample.info Sample.k2).
  vm_compute. reflexivity.
Defined.

(** The reservations of the sample kernel image: three pages from its
    physical base. *)
Example reserve_kernel_image :
  reserve Sample.intel 0x100000 0x3000 =
  [EvAllocateAt 0x100000; EvAllocateAt 0x101000; EvAllocateAt 0x102000].
Proof. vm_compute. reflexivity. Qed.

(** ** The boot image *)

Lemma header_check cfg image :
  (magic0 image =? BOOTIMAGE_MAGIC0 cfg) &&
  (magic1 image =? BOOTIMAGE_MAGIC1 cfg) &&
  (layoutRevision image =? BOOTIMAGE_REVISION cfg) = true <->
  header_matches cfg image.
Proof.
  unfold header_matches. rewrite !andb_true_iff, !Z.eqb_eq. tauto.
Qed.

Lemma loadBootImage_rejects cfg env fuel k :
  ~ header_matches cfg (bootImage_of env k) ->
  loadBootImage cfg env fuel k =
  (Ok InvalidBootImage,
   add_events [EvLog Notice "bootimage: "; EvLog Error "invalid boot image signature: "] k).
Proof.
  intros Hbad. unfold loadBootImage, NOTICE, ERROR.
  rewrite bind_gets, bind_emit. fold (bootImage_of env k).
  destruct (_ && _) eqn:Hchk.
  - apply header_check in Hchk. contradiction.
  - rewrite bind_emit. unfold ret.
    now rewrite !add_event_events, add_events_app.
Qed.

Lemma loadBootImage_accepts cfg env fuel k :
  let image := bootImage_of env k in
  header_matches cfg image ->
  symbolTableCount image + 1 <= 2 ^ WORD_BITS cfg ->
  (pageCount (symbolTableCount image) 1 < fuel)%nat ->
  loadBootImage cfg env fuel k =
  (forEach (offsets (symbolTableCount image) 1)
     (loadEntry cfg env fuel image (bootImageAddress (m_coreInfo k))) ;;
   ret Success)
    (add_event (EvLog Notice "bootimage: ") k).
Proof.
  intros image Hok Hw Hf. unfold loadBootImage, NOTICE.
  rewrite bind_gets, bind_emit. fold (bootImage_of env k). fold image.
  apply header_check in Hok. rewrite Hok.
  fold (loadEntry cfg env fuel image (bootImageAddress (m_coreInfo k))).
  now rewrite forLoop_unroll by (assumption || lia).
Qed.

Lemma offsets_range bound i : In i (offsets bound 1) -> 0 <= i < bound.
Proof.
  unfold offsets. rewrite <- list_elem_of_In, list_elem_of_fmap.
  intros (j & -> & Hj). apply elem_of_seq in Hj.
  pose proof (pageCount_below bound 1 j ltac:(lia) ltac:(lia)). lia.
Qed.

Lemma forEach_skip {T} (keep : T -> bool) (l : list T) body k :
  (forall x k', In x l -> keep x = false -> body x k' = (Ok tt, k')) ->
  forEach l body k = forEach (List.filter keep l) body k.
Proof.
  revert k. induction l as [| x l IH]; intros k Hskip; simpl.
  - reflexivity.
  - destruct (keep x) eqn:Hx; simpl.
    + unfold bind. destruct (body x k) as [[] k']; try reflexivity.
      apply IH. intros y k'' Hy. apply Hskip. now right.
    + unfold bind. rewrite (Hskip x k (or_introl eq_refl) Hx).
      apply IH. intros y k'' Hy. apply Hskip. now right.
Qed.

Lemma forEach_returns {T} (l : list T) body k :
  (forall x k', In x l -> exists k'', body x k' = (Ok tt, k'')) ->
  exists k', forEach l body k = (Ok tt, k').
Proof.
  revert k. induction l as [| x l IH]; intros k Hret; simpl.
  - now exists k.
  - destruct (Hret x k (or_introl eq_refl)) as [k1 H1].
    unfold bind. rewrite H1. apply IH. intros y k' Hy. apply Hret. now right.
Qed.

Lemma loadBootProcess_other cfg env fuel image imagePAddr index k :
  type (symbolAt image index) = BootOther ->
  loadBootProcess cfg env fuel image imagePAddr index k = (Ok InvalidBootImage, k).
Proof. intros Hty. unfold loadBootProcess. now rewrite Hty. Qed.

(** C4.  An image whose magic words or revision differ from the expected
    constants is rejected with [InvalidBootImage]; the load only writes its
    two log lines, so no entry is loaded and no process is created. *)
Theorem loadBootImage_rejects_bad_header cfg env fuel k :
  ~ header_matches cfg (bootImage_of env k) ->
  exists k',
    loadBootImage cfg env fuel k = (Ok InvalidBootImage, k') /\
    trace k' =
      trace k ++ [EvLog Notice "bootimage: "; EvLog Error "invalid boot image signature: "] /\
    List.filter is_create (trace k') = List.filter is_create (trace k).
Proof.
  intros Hbad. eexists. split; [now apply loadBootImage_rejects |].
  split; [reflexivity |]. simpl. rewrite List.filter_app. simpl. apply app_nil_r.
Qed.

Lemma loadBootImage_rejects_bad_header_witness :
  exists k',
    loadBootImage Sample.intel (Sample.env Sample.badImage CallSuccess CallSuccess)
      10 Sample.k1 = (Ok InvalidBootImage, k') /\
    trace k' =
      [EvLog Notice "bootimage: "; EvLog Error "invalid boot image signature: "] /\
    List.filter is_create (trace k') = [].
Proof.
  apply (loadBootImage_rejects_bad_header Sample.intel
           (Sample.env Sample.badImage CallSuccess CallSuccess) 10 Sample.k1).
  intros (Hmagic & _). vm_compute in Hmagic. discriminate.
Defined.

(** C5.  An entry that is neither a program nor a privileged program is
    answered with [InvalidBootImage] and leaves the kernel untouched, so no
    process is created for it; the loop of [loadBootImage] goes on, and the
    load of the image is the load of all its other entries, in order. *)
Theorem loadBootProcess_skips_other_entries cfg env fuel i k :
  let image := bootImage_of env k in
  let imagePAddr := bootImageAddress (m_coreInfo k) in
  header_matches cfg image ->
  symbolTableCount image + 1 <= 2 ^ WORD_BITS cfg ->
  (pageCount (symbolTableCount image) 1 < fuel)%nat ->
  type (symbolAt image i) = BootOther ->
  (forall k', loadBootProcess cfg env fuel image imagePAddr i k' = (Ok InvalidBootImage, k')) /\
  loadBootImage cfg env fuel k =
  (forEach (List.filter (fun j => negb (j =? i)) (offsets (symbolTableCount image) 1))
     (loadEntry cfg env fuel image imagePAddr) ;;
   ret Success)
    (add_event (EvLog Notice "bootimage: ") k).
Proof.
  intros image imagePAddr Hok Hw Hf Hty. split.
  - intros k'. now apply loadBootProcess_other.
  - rewrite loadBootImage_accepts by assumption. fold image imagePAddr.
    unfold bind. rewrite <- forEach_skip; [reflexivity |].
    intros x k' _ Hx. apply negb_false_iff, Z.eqb_eq in Hx. subst x.
    unfold loadEntry. now rewrite (bind_Ok _ _ _ _ _ (loadBootProcess_other _ _ _ _ _ _ _ Hty)).
Qed.

Lemma loadBootProcess_skips_other_entries_witness :
  (forall k',
     loadBootProcess Sample.intel
       (Sample.env (Sample.image [Sample.ramdisk; Sample.init]) CallSuccess CallSuccess)
       10 (Sample.image [Sample.ramdisk; Sample.init]) 0x800000 0 k' =
     (Ok InvalidBootImage, k')) /\
  loadBootImage Sample.intel
    (Sample.env (Sample.image [Sample.ramdisk; Sample.init]) CallSuccess CallSuccess)
    10 Sample.k1 =
  (forEach [1]
     (loadEntry Sample.intel
        (Sample.env (Sample.image [Sample.ramdisk; Sample.init]) CallSuccess CallSuccess)
        10 (Sample.image [Sample.ramdisk; Sample.init]) 0x800000) ;;
   ret Success)
    (add_event (EvLog Notice "bootimage: ") Sample.k1).
Proof.
  apply (loadBootProcess_skips_other_entries Sample.intel
           (Sample.env (Sample.image [Sample.ramdisk; Sample.init]) CallSuccess CallSuccess)
           10 0 Sample.k1).
  - vm_compute. auto.
  - vm_compute. discriminate.
  - vm_compute. lia.
  - reflexivity.
Defined.

(** An image with an unsupported entry before a program: the program is
    still loaded and the load succeeds. *)
Example sibling_entry_still_loads :
  loadBootImage Sample.intel
    (Sample.env (Sample.image [Sample.ramdisk; Sample.init]) CallSuccess CallSuccess)
    10 Sample.k1 =
  (Ok Success,
   add_events
     [EvLog Notice "bootimage: ";
      EvCreate 0x80000000 true false (Some 1);
      EvMap 1 0x80000000 0x801000 15 CallSuccess;
      EvAllocate (mkRange 0 4096 4096) CallSuccess 0x1000000;
      EvMapRange 1 (mkMemoryRange 0x9ffff000 0x1000000 4096 7) CallSuccess;
      EvMemorySet 0x1000000 0 4096;
      EvMemoryCopy 0x1000000 "init" 32;
      EvLog Notice "loaded: "]
     Sample.k1).
Proof. vm_compute. reflexivity. Qed.

Lemma map_pages_return cfg env fuel mem (virt phys : Z -> Z) access bytes k :
  0 < PAGESIZE cfg ->
  region_fits cfg fuel bytes = true ->
  exists k',
    forLoop cfg fuel bytes (PAGESIZE cfg) 0
      (fun j => _ <- MemoryContext_map env mem (virt j) (phys j) access ;; ret tt) k =
    (Ok tt, k').
Proof.
  intros Hp Hfit. apply region_fits_spec in Hfit as (_ & Hw & Hf).
  rewrite forLoop_unroll by assumption.
  apply forEach_returns. intros j k' _. eexists. reflexivity.
Qed.

(** The answers of the page mappings play no part in the result: when
    process creation and the provisioning of the arguments succeed, the
    load of a program returns [Success], whatever [map] answered. *)
Lemma loadBootProcess_map_unchecked cfg env fuel image imagePAddr index k :
  let program := symbolAt image index in
  type program <> BootOther ->
  0 < PAGESIZE cfg ->
  segmentsCount program + 1 <= 2 ^ WORD_BITS cfg ->
  (pageCount (segmentsCount program) 1 < fuel)%nat ->
  (forall i, region_fits cfg fuel (seg_size (segmentAt image i)) = true) ->
  (forall t e p, create_result env t e p <> None) ->
  (forall t a, fst (allocate_result env t a) = CallSuccess) ->
  (forall t p r, mapRange_result env t p r = CallSuccess) ->
  fst (loadBootProcess cfg env fuel image imagePAddr index k) = Ok Success.
Proof.
  intros program Hty Hp Hw Hf Hseg Hcreate Halloc Hrange.
  unfold loadBootProcess. fold program.
  assert (Hchk : negb (BootSymbolType_eqb (type program) BootProgram) &&
                 negb (BootSymbolType_eqb (type program) BootPrivProgram) = false)
    by (destruct (type program); [reflexivity | reflexivity | congruence]).
  rewrite Hchk. unfold bind at 1, ProcessManager_create.
  destruct (create_result env (trace k) (entry program) _) as [mem |] eqn:Hc;
    [| now apply Hcreate in Hc].
  match goal with
  | |- context [bind (forLoop cfg fuel ?n 1 0 ?body) ?rest ?k0] =>
      destruct (forEach_returns (offsets n 1) body k0) as [k1 Hk1];
      [| rewrite (bind_Ok (forLoop cfg fuel n 1 0 body) rest k0 tt k1) ]
  end.
  - intros i k' _. now apply map_pages_return.
  - unfold bind at 1, SplitAllocator_allocate. cbn [fst snd]. rewrite Halloc.
    unfold bind at 1, MemoryContext_mapRange. rewrite Hrange.
    reflexivity.
  - rewrite forLoop_unroll by (assumption || lia). exact Hk1.
Qed.

(** C3 fails on the code.  Every page mapping of the program's segment
    reports an error, and [loadBootProcess] still goes on to provision the
    arguments and returns [Success]. *)
Theorem loadBootProcess_ignores_map_failure :
  loadBootProcess Sample.intel
    (Sample.env (Sample.image [Sample.init]) CallFailure CallSuccess)
    10 (Sample.image [Sample.init]) 0x800000 0 Sample.k1 =
  (Ok Success,
   add_events
     [EvCreate 0x80000000 true false (Some 1);
      EvMap 1 0x80000000 0x801000 15 CallFailure;
      EvAllocate (mkRange 0 4096 4096) CallSuccess 0x1000000;
      EvMapRange 1 (mkMemoryRange 0x9ffff000 0x1000000 4096 7) CallSuccess;
      EvMemorySet 0x1000000 0 4096;
      EvMemoryCopy 0x1000000 "init" 32;
      EvLog Notice "loaded: "]
     Sample.k1).
Proof. vm_compute. reflexivity. Qed.

Lemma run_schedules cfg env fuel k r k' :
  loadBootImage cfg env fuel (add_event (EvLog Notice EmptyString) k) = (Ok r, k') ->
  run cfg env fuel k = (Ok 0, add_event EvSchedule k').
Proof.
  intros Hload. unfold run, NOTICE. rewrite bind_emit.
  now rewrite (bind_Ok _ _ _ _ _ Hload).
Qed.

(** C10.  For an image with the expected magic words and revision whose
    entries each return some result, whatever it is, [loadBootImage]
    returns [Success]; [run] goes on to the scheduler whatever
    [loadBootImage] returned, and does so for a rejected image, for which
    no process was created. *)
Theorem loadBootImage_success_by_header_alone cfg env fuel k :
  let image := bootImage_of env k in
  let imagePAddr := bootImageAddress (m_coreInfo k) in
  (header_matches cfg image ->
   symbolTableCount image + 1 <= 2 ^ WORD_BITS cfg ->
   (pageCount (symbolTableCount image) 1 < fuel)%nat ->
   (forall i k', 0 <= i < symbolTableCount image ->
      exists r k'', loadBootProcess cfg env fuel image imagePAddr i k' = (Ok r, k'')) ->
   fst (loadBootImage cfg env fuel k) = Ok Success) /\
  (header_matches cfg image ->
   forall r, fst (loadBootImage cfg env fuel k) = Ok r -> r = Success) /\
  (forall r k',
     loadBootImage cfg env fuel (add_event (EvLog Notice EmptyString) k) = (Ok r, k') ->
     run cfg env fuel k = (Ok 0, add_event EvSchedule k')) /\
  (~ header_matches cfg image ->
   run cfg env fuel k =
   (Ok 0,
    add_events
      [EvLog Notice EmptyString;
       EvLog Notice "bootimage: ";
       EvLog Error "invalid boot image signature: ";
       EvSchedule] k)).
Proof.
  intros image imagePAddr. split; [| split; [| split]].
  - intros Hok Hw Hf Hret.
    rewrite loadBootImage_accepts by assumption. fold image imagePAddr.
    destruct (forEach_returns (offsets (symbolTableCount image) 1)
                (loadEntry cfg env fuel image imagePAddr)
                (add_event (EvLog Notice "bootimage: ") k)) as [k' Hk'].
    + intros x k1 Hx. apply offsets_range in Hx.
      destruct (Hret x k1 Hx) as (r & k2 & Hr).
      exists k2. unfold loadEntry. now rewrite (bind_Ok _ _ _ _ _ Hr).
    + now rewrite (bind_Ok _ _ _ _ _ Hk').
  - intros Hok r. unfold loadBootImage, NOTICE.
    rewrite bind_gets, bind_emit. fold (bootImage_of env k). fold image.
    apply header_check in Hok. rewrite Hok. unfold bind at 1.
    destruct (forLoop _ _ _ _ _ _ _) as [[] k']; simpl; congruence.
  - intros r k'. apply run_schedules.
  - intros Hbad.
    rewrite (run_schedules cfg env fuel k InvalidBootImage _
               (loadBootImage_rejects cfg env fuel
                  (add_event (EvLog Notice EmptyString) k) Hbad)).
    now rewrite !add_event_events, !add_events_app.
Qed.

Lemma loadBootImage_success_by_header_alone_witness :
  fst (loadBootImage Sample.intel
         (Sample.env (Sample.image [Sample.ramdisk; Sample.init]) CallSuccess CallSuccess)
         10 Sample.k1) = Ok Success /\
  run Sample.intel (Sample.env Sample.badImage CallSuccess CallSuccess) 10 Sample.k1 =
  (Ok 0,
   add_events
     [EvLog Notice EmptyString;
      EvLog Notice "bootimage: ";
      EvLog Error "invalid boot image signature: ";
      EvSchedule] Sample.k1).
Proof.
  split.
  - apply (loadBootImage_success_by_header_alone Sample.intel
             (Sample.env (Sample.image [Sample.ramdisk; Sample.init]) CallSuccess CallSuccess)
             10 Sample.k1).
    + vm_compute. auto.
    + vm_compute. discriminate.
    + vm_compute. lia.
    + intros i k' Hi. change (0 <= i < 2) in Hi.
      assert (Hcase : i = 0 \/ i = 1) by lia.
      destruct Hcase as [-> | ->]; eexists; eexists; vm_compute; reflexivity.
  - apply (loadBootImage_success_by_header_alone Sample.intel
             (Sample.env Sample.badImage CallSuccess CallSuccess) 10 Sample.k1).
    intros (Hmagic & _). vm_compute in Hmagic. discriminate.
Defined.

(** * Further properties of the code *)

(** ** Registration *)

(** X1.  A registration on a vector of the table returns without any call
    on a collaborator; it keeps the size of the table and changes nothing
    but the slot of its vector. *)
Theorem hookIntVector_frame vec h p k :
  (Z.to_nat vec < length (m_interrupts k))%nat ->
  exists k',
    hookIntVector vec h p k = (Ok tt, k') /\
    length (m_interrupts k') = length (m_interrupts k) /\
    (forall i, i <> Z.to_nat vec -> m_interrupts k' !! i = m_interrupts k !! i) /\
    m_intControl k' = m_intControl k /\
    m_timer k' = m_timer k /\
    m_coreInfo k' = m_coreInfo k /\
    objects k' = objects k /\
    defaultAllocator k' = defaultAllocator k /\
    trace k' = trace k.
Proof.
  intros Hlen. eexists. split; [now apply hookIntVector_run |].
  destruct (contains _ _); simpl.
  - repeat split; reflexivity.
  - rewrite length_insert. repeat split; try reflexivity.
    intros i Hi. now apply list_lookup_insert_ne.
Qed.

Lemma hookIntVector_frame_witness :
  exists k',
    hookIntVector 33 0xc0100000 9 Sample.k2 = (Ok tt, k') /\
    length (m_interrupts k') = 256%nat /\
    (forall i, i <> 33%nat -> m_interrupts k' !! i = m_interrupts Sample.k2 !! i) /\
    m_intControl k' = Some Sample.pic /\
    m_timer k' = None /\
    m_coreInfo k' = Sample.info /\
    objects k' = ∅ /\
    defaultAllocator k' = None /\
    trace k' = [].
Proof.
  apply (hookIntVector_frame 33 0xc0100000 9 Sample.k2). vm_compute. lia.
Defined.

(** X2.  After a registration the hook is among the hooks of its vector;
    the hooks that were there stay, in their order, and a new hook comes
    last. *)
Theorem hookIntVector_registers vec h p k :
  (Z.to_nat vec < length (m_interrupts k))%nat ->
  let hook := mkInterruptHook h p in
  let k' := snd (hookIntVector vec h p k) in
  In hook (hooks_of k' vec) /\
  (In hook (hooks_of k vec) -> hooks_of k' vec = hooks_of k vec) /\
  (~ In hook (hooks_of k vec) -> hooks_of k' vec = hooks_of k vec ++ [hook]).
Proof.
  intros Hlen hook k'. unfold k'. rewrite hookIntVector_run by exact Hlen.
  cbn zeta. fold hook. cbn [snd].
  destruct (contains (hooks_of k vec) hook) eqn:Hc.
  - apply contains_In in Hc. split; [exact Hc |]. split; [reflexivity | contradiction].
  - rewrite hooks_of_registered by exact Hlen. unfold append.
    split; [apply in_or_app; right; now left |].
    split; [| reflexivity].
    intros Hin. apply contains_In in Hin. congruence.
Qed.

Lemma hookIntVector_registers_witness :
  let hook := mkInterruptHook 0xc0100000 9 in
  let k' := snd (hookIntVector 33 0xc0100000 9 Sample.k2) in
  In hook (hooks_of k' 33) /\
  (In hook (hooks_of Sample.k2 33) -> hooks_of k' 33 = hooks_of Sample.k2 33) /\
  (~ In hook (hooks_of Sample.k2 33) ->
   hooks_of k' 33 = [Sample.keyboard; Sample.keyboard'] ++ [hook]).
Proof.
  apply (hookIntVector_registers 33 0xc0100000 9 Sample.k2). vm_compute. lia.
Defined.

(** X3.  If no hook is registered twice for a vector, none is after a
    further registration. *)
Theorem hookIntVector_no_duplicates vec h p k :
  (Z.to_nat vec < length (m_interrupts k))%nat ->
  List.NoDup (hooks_of k vec) ->
  List.NoDup (hooks_of (snd (hookIntVector vec h p k)) vec).
Proof.
  intros Hlen Hnd. rewrite hookIntVector_run by exact Hlen. cbn zeta. cbn [snd].
  destruct (contains (hooks_of k vec) (mkInterruptHook h p)) eqn:Hc; [exact Hnd |].
  rewrite hooks_of_registered by exact Hlen. unfold append.
  apply NoDup_ListNoDup, NoDup_app. split; [now apply NoDup_ListNoDup |]. split.
  - intros x Hx Hx'. apply list_elem_of_In in Hx.
    apply list_elem_of_singleton in Hx'. subst x.
    apply contains_In in Hx. congruence.
  - apply NoDup_singleton.
Qed.

Lemma hookIntVector_no_duplicates_witness :
  List.NoDup (hooks_of (snd (hookIntVector 33 0xc0100000 7 Sample.k2)) 33).
Proof.
  apply (hookIntVector_no_duplicates 33 0xc0100000 7 Sample.k2).
  - vm_compute. lia.
  - vm_compute. repeat constructor; simpl; intuition discriminate.
Defined.

Lemma hooks_of_other_vector vec vec' lst k :
  Z.to_nat vec <> Z.to_nat vec' ->
  hooks_of (set_interrupts (<[Z.to_nat vec := lst]> (m_interrupts k)) k) vec' =
  hooks_of k vec'.
Proof.
  intros Hne. rewrite set_interrupts_lookup. unfold hooks_of.
  now rewrite list_lookup_insert_ne by exact Hne.
Qed.

(** X4.  Registrations on two different vectors can be made in either
    order: the kernel ends in the same state. *)
Theorem hookIntVector_commutes vec h p vec' h' p' k :
  (Z.to_nat vec < length (m_interrupts k))%nat ->
  (Z.to_nat vec' < length (m_interrupts k))%nat ->
  Z.to_nat vec <> Z.to_nat vec' ->
  (hookIntVector vec h p ;; hookIntVector vec' h' p') k =
  (hookIntVector vec' h' p' ;; hookIntVector vec h p) k.
Proof.
  intros Hlen Hlen' Hne.
  unfold bind. rewrite (hookIntVector_run vec h p k Hlen).
  rewrite (hookIntVector_run vec' h' p' k Hlen'). cbn zeta.
  destruct (contains (hooks_of k vec) (mkInterruptHook h p)) eqn:Hc;
    destruct (contains (hooks_of k vec') (mkInterruptHook h' p')) eqn:Hc'.
  - rewrite !hookIntVector_run by assumption. cbn zeta. now rewrite Hc, Hc'.
  - rewrite !hookIntVector_run by (simpl; rewrite ?length_insert; assumption).
    cbn zeta. rewrite Hc'.
    rewrite hooks_of_other_vector by (intros E; apply Hne; now rewrite E).
    now rewrite Hc.
  - rewrite !hookIntVector_run by (simpl; rewrite ?length_insert; assumption).
    cbn zeta. rewrite Hc.
    rewrite hooks_of_other_vector by exact Hne.
    now rewrite Hc'.
  - rewrite !hookIntVector_run by (simpl; rewrite ?length_insert; assumption).
    cbn zeta.
    rewrite (hooks_of_other_vector vec vec') by exact Hne.
    rewrite (hooks_of_other_vector vec' vec) by (intros E; apply Hne; now rewrite E).
    rewrite Hc, Hc'. unfold set_interrupts. simpl.
    now rewrite list_insert_insert_ne by (intros E; apply Hne; now rewrite E).
Qed.

Lemma hookIntVector_commutes_witness :
  (hookIntVector 33 0xc0100000 9 ;; hookIntVector 32 0xc0100400 0) Sample.k2 =
  (hookIntVector 32 0xc0100400 0 ;; hookIntVector 33 0xc0100000 9) Sample.k2.
Proof.
  apply (hookIntVector_commutes 33 0xc0100000 9 32 0xc0100400 0 Sample.k2).
  - vm_compute. lia.
  - vm_compute. lia.
  - vm_compute. lia.
Defined.

(** ** Dispatch *)


(** X6.  A hook registered on a vector where it was not yet registered is
    called by the next dispatch of that vector, after all hooks registered
    before it, with the CPU state, its own parameter and the vector. *)
Theorem hookIntVector_then_executeIntVector env vec h p state c k :
  m_intControl k = Some c ->
  (Z.to_nat vec < length (m_interrupts k))%nat ->
  ~ In (mkInterruptHook h p) (hooks_of k vec) ->
  exists tail,
    trace (snd ((hookIntVector vec h p ;; executeIntVector env vec state) k)) =
      trace k ++ EvDisable vec :: handler_calls (hooks_of k vec) state vec ++
      EvHandler h state p vec :: tail /\
    forallb (fun e => negb (is_handler_call e)) tail = true.
Proof.
  intros Hc Hlen Hnew.
  assert (Hcont : contains (hooks_of k vec) (mkInterruptHook h p) = false).
  { destruct (contains _ _) eqn:E; [| reflexivity]. apply contains_In in E. contradiction. }
  unfold bind. rewrite hookIntVector_run by exact Hlen. cbn zeta. rewrite Hcont.
  rewrite (executeIntVector_run env vec state c) by (simpl; rewrite ?length_insert; assumption).
  cbn zeta. rewrite hooks_of_registered by exact Hlen.
  unfold append, handler_calls. rewrite fmap_app.
  destruct (interruptNotify_result _ _ _);
    [ exists [EvInterruptNotify (wrap32 (vec - getBase c)) CallSuccess]
    | exists [EvInterruptNotify (wrap32 (vec - getBase c)) CallFailure;
              EvLog Emergency "failed to raise interrupt notification for IRQ #"] ];
    simpl; repeat (rewrite <- app_assoc; simpl); (split; [reflexivity | reflexivity]).
Qed.

Lemma hookIntVector_then_executeIntVector_witness :
  exists tail,
    trace (snd ((hookIntVector 33 0xc0100000 9 ;;
                 executeIntVector (Sample.env (Sample.image []) CallSuccess CallSuccess)
                   33 0xc0001000) Sample.k2)) =
      [EvDisable 33;
       EvHandler 0xc0100000 0xc0001000 7 33;
       EvHandler 0xc0100000 0xc0001000 8 33;
       EvHandler 0xc0100000 0xc0001000 9 33] ++ tail /\
    forallb (fun e => negb (is_handler_call e)) tail = true.
Proof.
  apply (hookIntVector_then_executeIntVector
           (Sample.env (Sample.image []) CallSuccess CallSuccess)
           33 0xc0100000 9 0xc0001000 Sample.pic Sample.k2).
  - reflexivity.
  - vm_compute. lia.
  - vm_compute. intuition discriminate.
Defined.

(** ** Inter-processor interrupts *)

(** X7.  With a controller installed [sendIRQ] makes exactly one [send]
    call.  It returns [Success] when the controller reports success;
    otherwise it writes an error line and returns [IOError], and the
    kernel goes on. *)
Theorem sendIRQ_reports env coreId irq c k :
  m_intControl k = Some c ->
  (send_result env (trace k) coreId irq = CallSuccess ->
   sendIRQ env coreId irq k =
   (Ok Success, add_events [EvSend coreId irq CallSuccess] k)) /\
  (send_result env (trace k) coreId irq = CallFailure ->
   sendIRQ env coreId irq k =
   (Ok IOError,
    add_events [EvSend coreId irq CallFailure;
                EvLog Error "failed to send IPI to core"] k)).
Proof.
  intros Hc. unfold sendIRQ. rewrite bind_gets, Hc.
  unfold IntController_send, ERROR.
  split; intros Hr; kstep; rewrite Hr; simpl.
  - reflexivity.
  - unfold add_events, add_event. simpl. now rewrite <- app_assoc.
Qed.

Lemma sendIRQ_reports_witness :
  sendIRQ (Cases.env (Sample.image []) None CallSuccess CallSuccess CallSuccess)
    1 33 Sample.k1 =
  (Ok Success, add_events [EvSend 1 33 CallSuccess] Sample.k1) /\
  sendIRQ (Cases.env (Sample.image []) None CallSuccess CallSuccess CallFailure)
    1 33 Sample.k1 =
  (Ok IOError,
   add_events [EvSend 1 33 CallFailure; EvLog Error "failed to send IPI to core"]
     Sample.k1).
Proof.
  split.
  - apply (sendIRQ_reports
             (Cases.env (Sample.image []) None CallSuccess CallSuccess CallSuccess)
             1 33 Sample.pic Sample.k1); reflexivity.
  - apply (sendIRQ_reports
             (Cases.env (Sample.image []) None CallSuccess CallSuccess CallFailure)
             1 33 Sample.pic Sample.k1); reflexivity.
Defined.

(** ** Construction, continued *)

Lemma Kernel_Kernel_state cfg env fuel info k :
  layout_fits cfg fuel info = true ->
  exists k',
    Kernel_Kernel cfg env fuel info k = (Ok tt, k') /\
    m_interrupts k' = replicate 256 None /\
    m_intControl k' = None /\
    m_timer k' = None /\
    m_coreInfo k' = info /\
    objects k' = objects k /\
    defaultAllocator k' = defaultAllocator k.
Proof.
  unfold layout_fits. rewrite !andb_true_iff, Z.ltb_lt.
  intros [[[[[Hp H4] Hk] Hb] Hh] Hc].
  unfold Kernel_Kernel.
  rewrite bind_modify, (bind_Ok _ _ _ _ _ (banner_run env _)).
  cbn zeta. rewrite !bind_emit, !bind_modify.
  rewrite (bind_Ok _ _ _ _ _ (reserve_loop cfg fuel _ _ _ Hp H4)).
  rewrite (bind_Ok _ _ _ _ _ (reserve_loop cfg fuel _ _ _ Hp Hk)).
  rewrite bind_gets.
  change (m_coreInfo (add_events _ (add_events _ _))) with info.
  rewrite (bind_Ok _ _ _ _ _ (reserve_loop cfg fuel _ _ _ Hp Hb)).
  rewrite (bind_Ok _ _ _ _ _ (reserve_loop cfg fuel _ _ _ Hp Hh)).
  rewrite (bind_Ok _ _ _ _ _ (reserve_loop cfg fuel _ _ _ Hp Hc)).
  eexists. split; [reflexivity |]. simpl.
  split; [unfold fill; now rewrite length_resize |].
  repeat split; reflexivity.
Qed.

(** X8.  A constructed kernel hands out the machine description it was
    given and no timer, has no interrupt controller and no hook on any
    vector, whatever was registered in that storage before; the
    allocators set up by [heap] are left as they were. *)
Theorem Kernel_initial_state cfg env fuel info k :
  layout_fits cfg fuel info = true ->
  exists k',
    Kernel_Kernel cfg env fuel info k = (Ok tt, k') /\
    getCoreInfo k' = (Ok info, k') /\
    getTimer k' = (Ok None, k') /\
    m_intControl k' = None /\
    (forall vec, hooks_of k' vec = []) /\
    objects k' = objects k /\
    defaultAllocator k' = defaultAllocator k.
Proof.
  intros Hfit.
  destruct (Kernel_Kernel_state cfg env fuel info k Hfit)
    as (k' & Hrun & Htbl & Hic & Htimer & Hinfo & Hobj & Hdef).
  exists k'. split; [exact Hrun |].
  unfold getCoreInfo, getTimer, gets. rewrite Hinfo, Htimer.
  repeat split; try assumption.
  intros vec. unfold hooks_of. rewrite Htbl.
  destruct (replicate 256 None !! Z.to_nat vec) as [[lst |] |] eqn:E; try reflexivity.
  apply lookup_replicate in E as [E _]. discriminate.
Qed.

Lemma Kernel_initial_state_witness :
  exists k',
    Kernel_Kernel Sample.intel (Sample.env (Sample.image []) CallSuccess CallSuccess)
      2000 Sample.info Sample.k2 = (Ok tt, k') /\
    getCoreInfo k' = (Ok Sample.info, k') /\
    getTimer k' = (Ok None, k') /\
    m_intControl k' = None /\
    (forall vec, hooks_of k' vec = []) /\
    objects k' = ∅ /\
    defaultAllocator k' = None.
Proof.
  apply (Kernel_initial_state Sample.intel
           (Sample.env (Sample.image []) CallSuccess CallSuccess)
           2000 Sample.info Sample.k2).
  vm_compute. reflexivity.
Defined.

(** X9.  The constructor installs no interrupt controller, so a dispatch
    that follows construction directly faults on the null controller,
    whereas a registration and [sendIRQ] can follow it. *)
Theorem Kernel_then_executeIntVector cfg env fuel info vec state h p coreId irq k :
  layout_fits cfg fuel info = true ->
  0 <= vec < 256 ->
  fst ((Kernel_Kernel cfg env fuel info ;; executeIntVector env vec state) k) =
    Fault NullPointer /\
  fst ((Kernel_Kernel cfg env fuel info ;; hookIntVector vec h p) k) = Ok tt /\
  fst ((Kernel_Kernel cfg env fuel info ;; sendIRQ env coreId irq) k) = Ok Success.
Proof.
  intros Hfit Hvec.
  destruct (Kernel_Kernel_state cfg env fuel info k Hfit)
    as (k' & Hrun & Htbl & Hic & _).
  assert (Hlen : (Z.to_nat vec < length (m_interrupts k'))%nat).
  { rewrite Htbl, length_replicate. lia. }
  rewrite !(bind_Ok _ _ _ _ _ Hrun). split; [| split].
  - destruct (lookup_lt_is_Some_2 _ _ Hlen) as [slot Hslot].
    unfold executeIntVector.
    rewrite (bind_Ok _ _ _ _ _ (enableIRQ_absent vec false k' Hic)).
    unfold interrupts_at. unfold bind at 1. rewrite Hslot.
    rewrite (bind_Ok _ _ _ _ _ (hooks_called slot state vec _)).
    kstep. now rewrite Hic.
  - now rewrite hookIntVector_run by exact Hlen.
  - unfold sendIRQ. kstep. now rewrite Hic.
Qed.

Lemma Kernel_then_executeIntVector_witness :
  fst ((Kernel_Kernel Sample.intel (Sample.env (Sample.image []) CallSuccess CallSuccess)
          2000 Sample.info ;;
        executeIntVector (Sample.env (Sample.image []) CallSuccess CallSuccess)
          33 0xc0001000) Sample.k2) = Fault NullPointer /\
  fst ((Kernel_Kernel Sample.intel (Sample.env (Sample.image []) CallSuccess CallSuccess)
          2000 Sample.info ;;
        hookIntVector 33 0xc0100000 7) Sample.k2) = Ok tt /\
  fst ((Kernel_Kernel Sample.intel (Sample.env (Sample.image []) CallSuccess CallSuccess)
          2000 Sample.info ;;
        sendIRQ (Sample.env (Sample.image []) CallSuccess CallSuccess) 1 33) Sample.k2) =
    Ok Success.
Proof.
  apply (Kernel_then_executeIntVector Sample.intel
           (Sample.env (Sample.image []) CallSuccess CallSuccess)
           2000 Sample.info 33 0xc0001000 0xc0100000 7 1 33 Sample.k2).
  - vm_compute. reflexivity.
  - lia.
Defined.

(** ** Loops whose counter wraps *)

Lemma forLoop_never_ends cfg bound body :
  0 < PAGESIZE cfg ->
  (PAGESIZE cfg | 2 ^ WORD_BITS cfg) ->
  2 ^ WORD_BITS cfg - PAGESIZE cfg < bound ->
  (forall i k, exists k', body i k = (Ok tt, k')) ->
  forall fuel i k,
    0 <= i < 2 ^ WORD_BITS cfg ->
    (PAGESIZE cfg | i) ->
    fst (forLoop cfg fuel bound (PAGESIZE cfg) i body k) = OutOfFuel.
Proof.
  intros Hp Hdiv Hbound Hbody. induction fuel as [| fuel IH]; intros i k Hi Hdi.
  - reflexivity.
  - cbn [forLoop]. destruct (Z.ltb_spec i bound) as [Hlt | Hge].
    + unfold bind. destruct (Hbody i k) as [k' ->]. apply IH.
      * unfold wrap. apply Z.mod_pos_bound. lia.
      * unfold wrap. rewrite Z.mod_eq by lia.
        apply Z.divide_sub_r.
        -- apply Z.divide_add_r; [exact Hdi | apply Z.divide_refl].
        -- now apply Z.divide_mul_l.
    + exfalso. destruct Hdiv as [q Hq]. destruct Hdi as [a Ha].
      remember (2 ^ WORD_BITS cfg) as top. remember (PAGESIZE cfg) as page.
      assert (Haq : a < q) by (apply (Z.mul_lt_mono_pos_r page); lia).
      assert (a * page <= (q - 1) * page) by (apply Z.mul_le_mono_nonneg_r; lia).
      lia.
Qed.

Lemma forLoop_emit_outcome cfg bound stride (ev : Z -> Event) :
  forall fuel i k,
    (exists es,
       forLoop cfg fuel bound stride i (fun j => emit (ev j)) k = (Ok tt, add_events es k)) \/
    fst (forLoop cfg fuel bound stride i (fun j => emit (ev j)) k) = OutOfFuel.
Proof.
  induction fuel as [| fuel IH]; intros i k.
  - right. reflexivity.
  - cbn [forLoop]. destruct (i <? bound).
    + rewrite bind_emit.
      destruct (IH (wrap cfg (i + stride)) (add_event (ev i) k)) as [[es Hes] | Hout].
      * left. exists (ev i :: es). rewrite Hes, add_event_events, add_events_app.
        reflexivity.
      * right. exact Hout.
    + left. exists []. unfold ret. now rewrite add_events_nil.
Qed.

(** X10.  The counter of a reservation loop is a [Size] that advances by
    a page: when the kernel image is larger than the last page boundary
    below the top of the address space, the counter wraps to zero before
    it reaches the size, and construction never finishes, whatever the
    fuel. *)
Theorem Kernel_never_ends_on_oversized_image cfg env fuel info k :
  0 <= WORD_BITS cfg ->
  0 < PAGESIZE cfg ->
  (PAGESIZE cfg | 2 ^ WORD_BITS cfg) ->
  2 ^ WORD_BITS cfg - PAGESIZE cfg < kernel_size info ->
  fst (Kernel_Kernel cfg env fuel info k) = OutOfFuel.
Proof.
  intros Hw Hp Hdiv Hbig. unfold Kernel_Kernel.
  rewrite bind_modify, (bind_Ok _ _ _ _ _ (banner_run env _)).
  cbn zeta. rewrite !bind_emit, !bind_modify.
  match goal with
  | |- context [bind (forLoop cfg fuel ?n ?s 0 (fun i => emit (@?ev i))) ?rest ?k0] =>
      destruct (forLoop_emit_outcome cfg n s ev fuel 0 k0) as [[es Hes] | Hout]
  end.
  - rewrite (bind_Ok _ _ _ _ _ Hes). unfold bind at 1.
    match goal with
    | |- context [forLoop cfg fuel (kernel_size info) (PAGESIZE cfg) 0 ?body ?k0] =>
        pose proof (forLoop_never_ends cfg (kernel_size info) body Hp Hdiv Hbig
                      ltac:(intros; eexists; reflexivity) fuel 0 k0
                      ltac:(split; [lia | apply Z.pow_pos_nonneg; lia])
                      (Z.divide_0_r _)) as Hloop;
        destruct (forLoop cfg fuel (kernel_size info) (PAGESIZE cfg) 0 body k0) as [r k1]
    end.
    simpl in Hloop. now subst r.
  - unfold bind at 1.
    match goal with
    | H : fst ?x = OutOfFuel |- context [?y] =>
        match y with
        | forLoop _ _ _ _ _ _ _ => destruct y as [r k1]
        end
    end.
    simpl in Hout. now subst r.
Qed.

Lemma Kernel_never_ends_on_oversized_image_witness :
  fst (Kernel_Kernel Sample.intel (Sample.env (Sample.image []) CallSuccess CallSuccess)
         4000 Cases.oversized Sample.k0) = OutOfFuel.
Proof.
  apply (Kernel_never_ends_on_oversized_image Sample.intel
           (Sample.env (Sample.image []) CallSuccess CallSuccess)
           4000 Cases.oversized Sample.k0).
  - vm_compute. discriminate.
  - reflexivity.
  - exists (2 ^ 20). reflexivity.
  - reflexivity.
Defined.

(** ** The heap, continued *)

Lemma heap_objects_pool cfg base size objs :
  heap_objects cfg base size objs !! wrap cfg (base + sizeof_BubbleAllocator cfg) =
  Some (mkAllocatorObj PoolAllocator
          (mkRange 0
             (wrap cfg (size - wrap cfg (sizeof_BubbleAllocator cfg + sizeof_PoolAllocator cfg)))
             4)
          (Some base)).
Proof.
  unfold heap_objects. rewrite lookup_alter_eq, lookup_insert_eq. reflexivity.
Qed.

(** X11.  [heap] does not compare the size of the range with the size of
    the two control blocks.  For a range too small to hold them it still
    returns 0 and installs the pool as the default allocator, and the size
    both allocators are given is [size - metaData] wrapped around the word:
    [2 ^ WORD_BITS + size - metaData]. *)
Theorem heap_range_too_small cfg base size k :
  let metaData := sizeof_BubbleAllocator cfg + sizeof_PoolAllocator cfg in
  let pool := wrap cfg (base + sizeof_BubbleAllocator cfg) in
  pool <> base ->
  metaData < 2 ^ WORD_BITS cfg ->
  0 <= size < metaData ->
  exists k' bubble_obj pool_obj,
    heap cfg base size k = (Ok 0, k') /\
    defaultAllocator k' = Some pool /\
    objects k' !! base = Some bubble_obj /\
    objects k' !! pool = Some pool_obj /\
    range_size (a_range bubble_obj) = 2 ^ WORD_BITS cfg + size - metaData /\
    range_size (a_range pool_obj) = 2 ^ WORD_BITS cfg + size - metaData /\
    size < range_size (a_range pool_obj).
Proof.
  intros metaData pool Hne Hmeta Hsize.
  assert (Hwrap : wrap cfg (size - wrap cfg metaData) = 2 ^ WORD_BITS cfg + size - metaData).
  { unfold wrap. rewrite (Z.mod_small metaData) by lia.
    replace (size - metaData)
      with (2 ^ WORD_BITS cfg + size - metaData + (-1) * 2 ^ WORD_BITS cfg) by lia.
    rewrite Z.mod_add by lia. apply Z.mod_small. lia. }
  do 3 eexists. rewrite heap_run. split; [reflexivity |]. cbn [defaultAllocator
    set_defaultAllocator objects set_objects].
  split; [reflexivity |].
  split; [now apply heap_objects_bubble |].
  split; [apply heap_objects_pool |].
  cbn [a_range range_size]. fold metaData. rewrite Hwrap. repeat split; lia.
Qed.

Lemma heap_range_too_small_witness :
  exists k' bubble_obj pool_obj,
    heap Sample.intel 0x900000 100 Sample.k0 = (Ok 0, k') /\
    defaultAllocator k' = Some 0x900018 /\
    objects k' !! 0x900000 = Some bubble_obj /\
    objects k' !! 0x900018 = Some pool_obj /\
    range_size (a_range bubble_obj) = 2 ^ 32 + 100 - 172 /\
    range_size (a_range pool_obj) = 2 ^ 32 + 100 - 172 /\
    100 < range_size (a_range pool_obj).
Proof.
  apply (heap_range_too_small Sample.intel 0x900000 100 Sample.k0).
  - vm_compute. discriminate.
  - reflexivity.
  - simpl. lia.
Defined.

(** ** The boot program loader, continued *)

(** [loadBootProcess] is: the type test, the creation of the process, the
    segment loops, and the provision of the arguments. *)
Lemma loadBootProcess_parts cfg env fuel image imagePAddr index :
  loadBootProcess cfg env fuel image imagePAddr index =
  let program := symbolAt image index in
  if negb (BootSymbolType_eqb (type program) BootProgram) &&
     negb (BootSymbolType_eqb (type program) BootPrivProgram)
  then ret InvalidBootImage
  else
    proc <- ProcessManager_create env (entry program) true
              (BootSymbolType_eqb (type program) BootPrivProgram) ;;
    match proc with
    | None => FATAL "failed to create boot program: " ;; ret ProcessError
    | Some mem =>
        loadBootProcess_segments cfg env fuel image imagePAddr mem program ;;
        loadBootProcess_arguments cfg env mem program
    end.
Proof. reflexivity. Qed.

Lemma type_test_program ty :
  ty <> BootOther ->
  negb (BootSymbolType_eqb ty BootProgram) && negb (BootSymbolType_eqb ty BootPrivProgram) =
  false.
Proof. destruct ty; [reflexivity | reflexivity | congruence]. Qed.

Lemma map_pages_trace env mem (virt phys : Z -> Z) access (pages : list Z) k :
  exists es,
    forEach pages
      (fun j => _ <- MemoryContext_map env mem (virt j) (phys j) access ;; ret tt) k =
    (Ok tt, add_events es k) /\
    Forall2 is_map_of ((fun j => mkMapRequest mem (virt j) (phys j) access) <$> pages) es.
Proof.
  revert k. induction pages as [| j pages IH]; intros k.
  - exists []. split; [simpl; unfold ret; now rewrite add_events_nil | constructor].
  - cbn [forEach]. unfold bind at 1. unfold bind at 1, MemoryContext_map at 1.
    cbn beta zeta iota. unfold ret at 1.
    destruct (IH (add_event (EvMap mem (virt j) (phys j) access
                               (map_result env (trace k) mem (virt j) (phys j) access)) k))
      as (es & Hes & Hall).
    eexists (_ :: es). split.
    + rewrite Hes, add_event_events, add_events_app. reflexivity.
    + rewrite fmap_cons. constructor; [| exact Hall]. eexists. reflexivity.
Qed.

Lemma loadBootProcess_segments_trace cfg env fuel image imagePAddr mem index k :
  segments_fit cfg fuel image ->
  exists maps,
    loadBootProcess_segments cfg env fuel image imagePAddr mem (symbolAt image index) k =
    (Ok tt, add_events maps k) /\
    Forall2 is_map_of
      (program_requests cfg image mem imagePAddr (symbolAt image index)) maps.
Proof.
  intros (Hp & Hseg & Hcount). destruct (Hcount index) as [Hw Hf].
  unfold loadBootProcess_segments, program_requests.
  rewrite forLoop_unroll by (assumption || lia).
  generalize (offsets (segmentsCount (symbolAt image index)) 1). intros l.
  revert k. induction l as [| i l IH]; intros k.
  - exists []. split; [simpl; unfold ret; now rewrite add_events_nil | constructor].
  - cbn [forEach]. rewrite fmap_cons. cbn [concat].
    pose proof (region_fits_spec _ _ _ (Hseg (segmentsOffset (symbolAt image index) + i)))
      as (_ & Hw' & Hf').
    rewrite forLoop_unroll by assumption.
    destruct (map_pages_trace env mem
                (fun j => wrap cfg (virtualAddress
                   (segmentAt image (segmentsOffset (symbolAt image index) + i)) + j))
                (fun j => wrap cfg (imagePAddr + offset
                   (segmentAt image (segmentsOffset (symbolAt image index) + i)) + j))
                (access_code cfg)
                (offsets (seg_size (segmentAt image (segmentsOffset (symbolAt image index) + i)))
                   (PAGESIZE cfg)) k) as (es & Hes & Hall).
    rewrite (bind_Ok _ _ _ _ _ Hes).
    destruct (IH (add_events es k)) as (es' & Hes' & Hall').
    exists (es ++ es'). split.
    + rewrite Hes', add_events_app. reflexivity.
    + apply Forall2_app; [exact Hall | exact Hall'].
Qed.

Lemma loadBootProcess_arguments_run cfg env mem program k :
  loadBootProcess_arguments cfg env mem program k =
  let r := allocate_result env (trace k) (args_request cfg) in
  let k1 := add_event (EvAllocate (args_request cfg) (fst r) (snd r)) k in
  match fst r with
  | CallFailure =>
      (Halted, add_event (EvLog Emergency "failed to allocate program arguments page") k1)
  | CallSuccess =>
      let r' := mapRange_result env (trace k1) mem (args_range cfg (snd r)) in
      let k2 := add_event (EvMapRange mem (args_range cfg (snd r)) r') k1 in
      match r' with
      | CallFailure =>
          (Halted, add_event (EvLog Emergency "failed to map program arguments page") k2)
      | CallSuccess =>
          (Ok Success,
           add_events
             [EvMemorySet (toVirtual env (snd r)) 0 (mr_size (UserArgs cfg));
              EvMemoryCopy (toVirtual env (snd r)) (name program) (BOOTIMAGE_NAMELEN cfg);
              EvLog Notice "loaded: "] k2)
      end
  end.
Proof.
  unfold loadBootProcess_arguments, SplitAllocator_allocate, MemoryContext_mapRange,
    FATAL, NOTICE.
  unfold bind at 1. cbn beta zeta iota.
  destruct (fst (allocate_result env (trace k) (args_request cfg))).
  - unfold bind at 1. cbn beta zeta iota.
    destruct (mapRange_result env _ mem _).
    + rewrite !bind_emit. unfold ret.
      now rewrite !add_event_events, !add_events_app.
    + reflexivity.
  - reflexivity.
Qed.

(** X12.  When the process manager cannot create the process of a program
    entry, [loadBootProcess] logs the failure and halts: nothing is mapped
    and no arguments page is asked for. *)
Theorem loadBootProcess_create_failure cfg env fuel image imagePAddr index k :
  let program := symbolAt image index in
  let privileged := BootSymbolType_eqb (type program) BootPrivProgram in
  type program <> BootOther ->
  create_result env (trace k) (entry program) privileged = None ->
  loadBootProcess cfg env fuel image imagePAddr index k =
  (Halted,
   add_events [EvCreate (entry program) true privileged None;
               EvLog Emergency "failed to create boot program: "] k).
Proof.
  intros program privileged Hty Hnone.
  rewrite loadBootProcess_parts. cbn zeta. fold program.
  rewrite type_test_program by exact Hty.
  unfold bind at 1, ProcessManager_create at 1. cbn beta zeta iota.
  fold privileged. rewrite Hnone. unfold FATAL. kstep.
  unfold add_events, add_event. simpl. now rewrite <- app_assoc.
Qed.

Lemma loadBootProcess_create_failure_witness :
  loadBootProcess Sample.intel
    (Cases.env (Sample.image Cases.programs) None CallSuccess CallSuccess CallSuccess)
    10 (Sample.image Cases.programs) 0x800000 2 Sample.k1 =
  (Halted,
   add_events [EvCreate 0x80001000 true true None;
               EvLog Emergency "failed to create boot program: "] Sample.k1).
Proof.
  apply (loadBootProcess_create_failure Sample.intel
           (Cases.env (Sample.image Cases.programs) None CallSuccess CallSuccess CallSuccess)
           10 (Sample.image Cases.programs) 0x800000 2 Sample.k1).
  - discriminate.
  - reflexivity.
Defined.

(** The part of a load that precedes the arguments: creation, then the
    page mappings of all segments. *)
Lemma loadBootProcess_mapped cfg env fuel image imagePAddr index mem k :
  let program := symbolAt image index in
  let privileged := BootSymbolType_eqb (type program) BootPrivProgram in
  segments_fit cfg fuel image ->
  type program <> BootOther ->
  create_result env (trace k) (entry program) privileged = Some mem ->
  exists maps,
    Forall2 is_map_of (program_requests cfg image mem imagePAddr program) maps /\
    loadBootProcess cfg env fuel image imagePAddr index k =
    loadBootProcess_arguments cfg env mem program
      (add_events (EvCreate (entry program) true privileged (Some mem) :: maps) k).
Proof.
  intros program privileged Hfit Hty Hsome.
  rewrite loadBootProcess_parts. cbn zeta. fold program.
  rewrite type_test_program by exact Hty.
  unfold bind at 1, ProcessManager_create at 1. cbn beta zeta iota.
  fold privileged. rewrite Hsome.
  destruct (loadBootProcess_segments_trace cfg env fuel image imagePAddr mem index
              (add_event (EvCreate (entry program) true privileged (Some mem)) k) Hfit)
    as (maps & Hrun & Hall).
  exists maps. split; [exact Hall |].
  fold program in Hrun. rewrite (bind_Ok _ _ _ _ _ Hrun).
  now rewrite add_event_events, add_events_app.
Qed.

(** X13.  When the ledger has no page for the arguments, [loadBootProcess]
    logs the failure and halts after the segments were mapped: the process
    stays created and mapped, and no arguments range is mapped or
    written. *)
Theorem loadBootProcess_allocate_failure cfg env fuel image imagePAddr index mem k :
  let program := symbolAt image index in
  let privileged := BootSymbolType_eqb (type program) BootPrivProgram in
  segments_fit cfg fuel image ->
  type program <> BootOther ->
  create_result env (trace k) (entry program) privileged = Some mem ->
  (forall t, fst (allocate_result env t (args_request cfg)) = CallFailure) ->
  exists maps phys,
    Forall2 is_map_of (program_requests cfg image mem imagePAddr program) maps /\
    loadBootProcess cfg env fuel image imagePAddr index k =
    (Halted,
     add_events
       (EvCreate (entry program) true privileged (Some mem) :: maps ++
        [EvAllocate (args_request cfg) CallFailure phys;
         EvLog Emergency "failed to allocate program arguments page"]) k).
Proof.
  intros program privileged Hfit Hty Hsome Hfail.
  destruct (loadBootProcess_mapped cfg env fuel image imagePAddr index mem k Hfit Hty Hsome)
    as (maps & Hall & ->).
  exists maps. eexists. split; [exact Hall |].
  rewrite loadBootProcess_arguments_run. cbn zeta. rewrite Hfail.
  rewrite !add_event_events, !add_events_app. simpl. rewrite <- ?app_assoc. reflexivity.
Qed.

(** X14.  When the arguments range cannot be mapped into the process,
    [loadBootProcess] logs the failure and halts: the page it took from
    the ledger is not given back and is not written. *)
Theorem loadBootProcess_mapRange_failure cfg env fuel image imagePAddr index mem k :
  let program := symbolAt image index in
  let privileged := BootSymbolType_eqb (type program) BootPrivProgram in
  segments_fit cfg fuel image ->
  type program <> BootOther ->
  create_result env (trace k) (entry program) privileged = Some mem ->
  (forall t, fst (allocate_result env t (args_request cfg)) = CallSuccess) ->
  (forall t r, mapRange_result env t mem r = CallFailure) ->
  exists maps phys,
    Forall2 is_map_of (program_requests cfg image mem imagePAddr program) maps /\
    loadBootProcess cfg env fuel image imagePAddr index k =
    (Halted,
     add_events
       (EvCreate (entry program) true privileged (Some mem) :: maps ++
        [EvAllocate (args_request cfg) CallSuccess phys;
         EvMapRange mem (args_range cfg phys) CallFailure;
         EvLog Emergency "failed to map program arguments page"]) k).
Proof.
  intros program privileged Hfit Hty Hsome Halloc Hfail.
  destruct (loadBootProcess_mapped cfg env fuel image imagePAddr index mem k Hfit Hty Hsome)
    as (maps & Hall & ->).
  exists maps. eexists. split; [exact Hall |].
  rewrite loadBootProcess_arguments_run. cbn zeta. rewrite Halloc, Hfail.
  rewrite !add_event_events, !add_events_app. simpl. rewrite <- ?app_assoc. reflexivity.
Qed.

(** X15.  A load that succeeds makes these calls, in this order: the
    creation of the process, as a boot program and privileged exactly for
    a privileged program; for every segment in table order and every page
    of it in address order, one mapping of the page at the segment's
    virtual address to the page of the image at the segment's offset, user
    accessible, readable, writable and executable; the allocation of the
    arguments page; the mapping of the arguments range at that page, user
    accessible, readable and writable; the clearing of the page and the
    copy of the program's name into it. *)
Theorem loadBootProcess_success_trace cfg env fuel image imagePAddr index mem k :
  let program := symbolAt image index in
  let privileged := BootSymbolType_eqb (type program) BootPrivProgram in
  segments_fit cfg fuel image ->
  type program <> BootOther ->
  create_result env (trace k) (entry program) privileged = Some mem ->
  (forall t, fst (allocate_result env t (args_request cfg)) = CallSuccess) ->
  (forall t r, mapRange_result env t mem r = CallSuccess) ->
  exists maps phys,
    Forall2 is_map_of (program_requests cfg image mem imagePAddr program) maps /\
    loadBootProcess cfg env fuel image imagePAddr index k =
    (Ok Success,
     add_events
       (EvCreate (entry program) true privileged (Some mem) :: maps ++
        arguments_events cfg env mem phys program) k).
Proof.
  intros program privileged Hfit Hty Hsome Halloc Hrange.
  destruct (loadBootProcess_mapped cfg env fuel image imagePAddr index mem k Hfit Hty Hsome)
    as (maps & Hall & ->).
  exists maps. eexists. split; [exact Hall |].
  rewrite loadBootProcess_arguments_run. cbn zeta. rewrite Halloc, Hrange.
  rewrite !add_event_events, !add_events_app. unfold arguments_events.
  simpl. rewrite <- ?app_assoc. reflexivity.
Qed.

Lemma Cases_image_fits : segments_fit Sample.intel 10 Cases.image.
Proof.
  split; [reflexivity |]. split.
  - intros i. unfold Cases.image, Cases.segments. cbn [segmentAt].
    destruct (i =? 0); [reflexivity |]. destruct (i =? 1); reflexivity.
  - intros i. unfold Cases.image, Sample.symbols. cbn [symbolAt].
    destruct (Z.to_nat i) as [| [| [| n]]]; vm_compute; split; (discriminate || lia).
Qed.

Lemma loadBootProcess_allocate_failure_witness :
  exists maps phys,
    Forall2 is_map_of
      (program_requests Sample.intel Cases.image 5 0x800000 Cases.server) maps /\
    loadBootProcess Sample.intel
      (Cases.env Cases.image (Some 5) CallFailure CallSuccess CallSuccess)
      10 Cases.image 0x800000 2 Sample.k1 =
    (Halted,
     add_events
       (EvCreate 0x80001000 true true (Some 5) :: maps ++
        [EvAllocate (mkRange 0 4096 4096) CallFailure phys;
         EvLog Emergency "failed to allocate program arguments page"]) Sample.k1).
Proof.
  apply (loadBootProcess_allocate_failure Sample.intel
           (Cases.env Cases.image (Some 5) CallFailure CallSuccess CallSuccess)
           10 Cases.image 0x800000 2 5 Sample.k1).
  - exact Cases_image_fits.
  - discriminate.
  - reflexivity.
  - reflexivity.
Defined.

Lemma loadBootProcess_mapRange_failure_witness :
  exists maps phys,
    Forall2 is_map_of
      (program_requests Sample.intel Cases.image 5 0x800000 Cases.server) maps /\
    loadBootProcess Sample.intel
      (Cases.env Cases.image (Some 5) CallSuccess CallFailure CallSuccess)
      10 Cases.image 0x800000 2 Sample.k1 =
    (Halted,
     add_events
       (EvCreate 0x80001000 true true (Some 5) :: maps ++
        [EvAllocate (mkRange 0 4096 4096) CallSuccess phys;
         EvMapRange 5 (mkMemoryRange 0x9ffff000 phys 4096 7) CallFailure;
         EvLog Emergency "failed to map program arguments page"]) Sample.k1).
Proof.
  apply (loadBootProcess_mapRange_failure Sample.intel
           (Cases.env Cases.image (Some 5) CallSuccess CallFailure CallSuccess)
           10 Cases.image 0x800000 2 5 Sample.k1).
  - exact Cases_image_fits.
  - discriminate.
  - reflexivity.
  - reflexivity.
  - reflexivity.
Defined.

Lemma loadBootProcess_success_trace_witness :
  exists maps phys,
    Forall2 is_map_of
      (program_requests Sample.intel Cases.image 5 0x800000 Cases.server) maps /\
    loadBootProcess Sample.intel
      (Cases.env Cases.image (Some 5) CallSuccess CallSuccess CallSuccess)
      10 Cases.image 0x800000 2 Sample.k1 =
    (Ok Success,
     add_events
       (EvCreate 0x80001000 true true (Some 5) :: maps ++
        arguments_events Sample.intel
          (Cases.env Cases.image (Some 5) CallSuccess CallSuccess CallSuccess)
          5 phys Cases.server) Sample.k1).
Proof.
  apply (loadBootProcess_success_trace Sample.intel
           (Cases.env Cases.image (Some 5) CallSuccess CallSuccess CallSuccess)
           10 Cases.image 0x800000 2 5 Sample.k1).
  - exact Cases_image_fits.
  - discriminate.
  - reflexivity.
  - reflexivity.
  - reflexivity.
Defined.

(** The pages asked for the sample server: one page of text, two pages for
    a page and a half of data. *)
Example server_requests :
  program_requests Sample.intel Cases.image 5 0x800000 Cases.server =
  [mkMapRequest 5 0x80000000 0x801000 15;
   mkMapRequest 5 0x80400000 0x802000 15;
   mkMapRequest 5 0x80401000 0x803000 15].
Proof. vm_compute. reflexivity. Qed.

Example server_load :
  loadBootProcess Sample.intel
    (Cases.env Cases.image (Some 5) CallSuccess CallSuccess CallSuccess)
    10 Cases.image 0x800000 2 Sample.k1 =
  (Ok Success,
   add_events
     [EvCreate 0x80001000 true true (Some 5);
      EvMap 5 0x80000000 0x801000 15 CallSuccess;
      EvMap 5 0x80400000 0x802000 15 CallSuccess;
      EvMap 5 0x80401000 0x803000 15 CallSuccess;
      EvAllocate (mkRange 0 4096 4096) CallSuccess 0x1000000;
      EvMapRange 5 (mkMemoryRange 0x9ffff000 0x1000000 4096 7) CallSuccess;
      EvMemorySet 0xc1000000 0 4096;
      EvMemoryCopy 0xc1000000 "server" 32;
      EvLog Notice "loaded: "]
     Sample.k1).
Proof. vm_compute. reflexivity. Qed.

(** ** The boot image loader, continued *)

Lemma creations_app t t' : creations (t ++ t') = creations t ++ creations t'.
Proof. apply omap_app. Qed.

Lemma creations_create entryPoint isBoot privileged res t :
  creations (EvCreate entryPoint isBoot privileged res :: t) =
  (entryPoint, privileged) :: creations t.
Proof. reflexivity. Qed.

Lemma creations_maps rqs maps : Forall2 is_map_of rqs maps -> creations maps = [].
Proof.
  induction 1 as [| rq e rqs maps [res ->] _ IH]; [reflexivity |].
  unfold creations in *. simpl. exact IH.
Qed.

Lemma loadEntries_creations cfg env fuel image imagePAddr :
  segments_fit cfg fuel image ->
  always_succeeds env ->
  forall l k,
    exists k',
      forEach l (loadEntry cfg env fuel image imagePAddr) k = (Ok tt, k') /\
      creations (trace k') =
      creations (trace k) ++
      omap (fun i =>
              let program := symbolAt image i in
              match type program with
              | BootOther => None
              | ty => Some (entry program, BootSymbolType_eqb ty BootPrivProgram)
              end) l.
Proof.
  intros Hfit (Hcreate & Halloc & Hrange).
  induction l as [| i l IH]; intros k.
  - exists k. split; [reflexivity |]. simpl. now rewrite app_nil_r.
  - cbn [forEach omap list_omap]. cbn zeta.
    destruct (type (symbolAt image i)) eqn:Hty.
    1, 2:
      destruct (create_result env (trace k) (entry (symbolAt image i))
                  (BootSymbolType_eqb (type (symbolAt image i)) BootPrivProgram))
        as [mem |] eqn:Hmem; [| now apply Hcreate in Hmem];
      destruct (loadBootProcess_mapped cfg env fuel image imagePAddr i mem k Hfit
                  ltac:(congruence) Hmem) as (maps & Hall & Hrun);
      rewrite loadBootProcess_arguments_run in Hrun; cbn zeta in Hrun;
      rewrite Halloc, Hrange in Hrun;
      unfold loadEntry at 1; rewrite (bind_Ok _ _ _ _ _ (bind_Ok _ _ _ _ _ Hrun));
      match goal with
      | |- context [forEach _ _ ?k1] => destruct (IH k1) as (k' & Hk' & Hcr)
      end;
      exists k'; (split; [exact Hk' |]);
      rewrite Hcr; cbn [trace add_events add_event];
      rewrite !creations_app, creations_create, (creations_maps _ _ Hall), ?Hty;
      cbn; rewrite ?app_nil_r, <- ?app_assoc; reflexivity.
    unfold loadEntry at 1.
    rewrite (bind_Ok _ _ _ _ _ (bind_Ok _ _ _ _ _
               (loadBootProcess_other cfg env fuel image imagePAddr i k Hty))).
    apply IH.
Qed.

(** X16.  When the collaborators succeed, [loadBootImage] of an accepted
    image returns [Success] and has asked for one process per program
    entry of the symbol table, in table order, each with its entry point
    and privileged exactly when the entry is a privileged program; entries
    of other types create nothing. *)
Theorem loadBootImage_creates_programs cfg env fuel k :
  let image := bootImage_of env k in
  header_matches cfg image ->
  symbolTableCount image + 1 <= 2 ^ WORD_BITS cfg ->
  (pageCount (symbolTableCount image) 1 < fuel)%nat ->
  segments_fit cfg fuel image ->
  always_succeeds env ->
  exists k',
    loadBootImage cfg env fuel k = (Ok Success, k') /\
    creations (trace k') = creations (trace k) ++ program_entries image.
Proof.
  intros image Hok Hw Hf Hfit Henv.
  rewrite loadBootImage_accepts by assumption. fold image.
  destruct (loadEntries_creations cfg env fuel image (bootImageAddress (m_coreInfo k))
              Hfit Henv (offsets (symbolTableCount image) 1)
              (add_event (EvLog Notice "bootimage: ") k)) as (k' & Hrun & Hcr).
  exists k'. split.
  - now rewrite (bind_Ok _ _ _ _ _ Hrun).
  - rewrite Hcr. cbn [trace add_event]. rewrite creations_app. cbn.
    now rewrite app_nil_r.
Qed.

Lemma Cases_env_succeeds :
  always_succeeds (Cases.env Cases.image (Some 5) CallSuccess CallSuccess CallSuccess).
Proof. repeat split; intros; simpl; congruence. Qed.

Lemma loadBootImage_creates_programs_witness :
  exists k',
    loadBootImage Sample.intel
      (Cases.env Cases.image (Some 5) CallSuccess CallSuccess CallSuccess)
      10 Sample.k1 = (Ok Success, k') /\
    creations (trace k') = [(0x80000000, false); (0x80001000, true)].
Proof.
  apply (loadBootImage_creates_programs Sample.intel
           (Cases.env Cases.image (Some 5) CallSuccess CallSuccess CallSuccess)
           10 Sample.k1).
  - vm_compute. auto.
  - vm_compute. discriminate.
  - vm_compute. lia.
  - exact Cases_image_fits.
  - exact Cases_env_succeeds.
Defined.

(** X17.  When the first entry of an accepted image is a program that the
    process manager cannot create, [run] halts in the load: no further
    entry is looked at and the scheduler is never started. *)
Theorem run_halts_on_create_failure cfg env fuel k :
  let image := bootImage_of env k in
  let program := symbolAt image 0 in
  let privileged := BootSymbolType_eqb (type program) BootPrivProgram in
  let k0 := add_events [EvLog Notice EmptyString; EvLog Notice "bootimage: "] k in
  header_matches cfg image ->
  0 < symbolTableCount image ->
  (0 < fuel)%nat ->
  type program <> BootOther ->
  create_result env (trace k0) (entry program) privileged = None ->
  run cfg env fuel k =
  (Halted,
   add_events
     [EvLog Notice EmptyString;
      EvLog Notice "bootimage: ";
      EvCreate (entry program) true privileged None;
      EvLog Emergency "failed to create boot program: "] k).
Proof.
  intros image program privileged k0 Hok Hcount Hfuel Hty Hnone.
  destruct fuel as [| fuel]; [lia |].
  unfold run, NOTICE. rewrite bind_emit. unfold bind at 1.
  unfold loadBootImage, NOTICE. rewrite bind_gets, bind_emit.
  change (m_coreInfo (add_event (EvLog Notice EmptyString) k)) with (m_coreInfo k).
  fold (bootImage_of env k). fold image.
  apply header_check in Hok. rewrite Hok.
  cbn [forLoop]. destruct (Z.ltb_spec 0 (symbolTableCount image)); [| lia].
  unfold bind at 1. unfold bind at 1. unfold bind at 1.
  rewrite loadBootProcess_parts. cbn zeta. fold program.
  rewrite type_test_program by exact Hty.
  unfold bind at 1, ProcessManager_create at 1. cbn beta zeta iota. fold privileged.
  replace (trace (add_event (EvLog Notice "bootimage: ")
                    (add_event (EvLog Notice EmptyString) k)))
    with (trace k0)
    by (subst k0; cbn [trace add_event add_events]; exact (app_assoc _ [_] [_])).
  rewrite Hnone. unfold FATAL. kstep.
  now rewrite !add_event_events, !add_events_app.
Qed.

Lemma run_halts_on_create_failure_witness :
  run Sample.intel
    (Cases.env Cases.image None CallSuccess CallSuccess CallSuccess) 10 Sample.k1 =
  (Halted,
   add_events
     [EvLog Notice EmptyString;
      EvLog Notice "bootimage: ";
      EvCreate 0x80000000 true false None;
      EvLog Emergency "failed to create boot program: "] Sample.k1).
Proof.
  apply (run_halts_on_create_failure Sample.intel
           (Cases.env Cases.image None CallSuccess CallSuccess CallSuccess) 10 Sample.k1).
  - vm_compute. auto.
  - reflexivity.
  - lia.
  - discriminate.
  - reflexivity.
Defined.

Lemma forLoop_step cfg fuel bound stride i body :
  forLoop cfg (S fuel) bound stride i body =
  if i <? bound
  then body i ;; forLoop cfg fuel bound stride (wrap cfg (i + stride)) body
  else ret tt.
Proof. reflexivity. Qed.

(** X18.  The page counter of the segment loop is a [Size] too: a program
    whose first segment is larger than the last page boundary below the
    top of the address space makes [loadBootProcess] map pages for ever
    once the process is created, whatever the fuel. *)
Theorem loadBootProcess_never_ends_on_oversized_segment
    cfg env fuel image imagePAddr index mem k :
  let program := symbolAt image index in
  let privileged := BootSymbolType_eqb (type program) BootPrivProgram in
  0 <= WORD_BITS cfg ->
  0 < PAGESIZE cfg ->
  (PAGESIZE cfg | 2 ^ WORD_BITS cfg) ->
  type program <> BootOther ->
  create_result env (trace k) (entry program) privileged = Some mem ->
  0 < segmentsCount program ->
  2 ^ WORD_BITS cfg - PAGESIZE cfg < seg_size (segmentAt image (segmentsOffset program + 0)) ->
  fst (loadBootProcess cfg env fuel image imagePAddr index k) = OutOfFuel.
Proof.
  intros program privileged Hw Hp Hdiv Hty Hsome Hcount Hbig.
  rewrite loadBootProcess_parts. cbn zeta. fold program.
  rewrite type_test_program by exact Hty.
  unfold bind at 1, ProcessManager_create at 1. cbn beta zeta iota.
  fold privileged. rewrite Hsome.
  unfold bind at 1, loadBootProcess_segments.
  destruct fuel as [| fuel]; [reflexivity |].
  rewrite (forLoop_step cfg fuel (segmentsCount program) 1).
  destruct (Z.ltb_spec 0 (segmentsCount program)); [| lia].
  unfold bind at 1.
  match goal with
  | |- context [forLoop cfg (S fuel) ?n (PAGESIZE cfg) 0 ?body ?k0] =>
      pose proof (forLoop_never_ends cfg n body Hp Hdiv Hbig
                    ltac:(intros; eexists; reflexivity) (S fuel) 0 k0
                    ltac:(split; [lia | apply Z.pow_pos_nonneg; lia])
                    (Z.divide_0_r _)) as Hloop;
      destruct (forLoop cfg (S fuel) n (PAGESIZE cfg) 0 body k0) as [r k1]
  end.
  simpl in Hloop. now subst r.
Qed.

Lemma loadBootProcess_never_ends_on_oversized_segment_witness :
  fst (loadBootProcess Sample.intel
         (Cases.env Cases.hugeImage (Some 5) CallSuccess CallSuccess CallSuccess)
         4000 Cases.hugeImage 0x800000 0 Sample.k1) = OutOfFuel.
Proof.
  apply (loadBootProcess_never_ends_on_oversized_segment Sample.intel
           (Cases.env Cases.hugeImage (Some 5) CallSuccess CallSuccess CallSuccess)
           4000 Cases.hugeImage 0x800000 0 5 Sample.k1).
  - vm_compute. discriminate.
  - reflexivity.
  - exists (2 ^ 20). reflexivity.
  - discriminate.
  - reflexivity.
  - reflexivity.
  - reflexivity.
Defined.
